(** * YouTube processor scripts: a shallow embedding and its properties

    The repository holds two Python scripts:
    - [scripts/youtube_processor.py], a command-line tool (module [Cli]);
    - [src/youtube-processor.py], the [YouTubeProcessor] class (module
      [Processor]).

    Python strings are sequences of Unicode code points, and regular
    expressions are run by a backtracking matcher with Python's leftmost,
    first-alternative, greedy semantics (module [Re]). *)

From Stdlib Require Import ZArith NArith Ascii String DecimalString DecimalNat.
From Stdlib Require Import SpecFloat Lia.
From stdpp Require Import gmap.
From stdpp Require Import base option list strings.

Set Warnings "-register-all".

(** ** Python strings *)

Module Py.

(** A character is a Unicode code point. *)
Definition char := N.
Definition pystr := list char.

(** The Python string written as an ASCII literal. *)
Definition py (s : string) : pystr :=
  map N_of_ascii (list_ascii_of_string s).

(** The code point of an ASCII character. *)
Definition ch (a : ascii) : char := N_of_ascii a.
Arguments ch a%_char.

Definition newline : char := 10%N.

Definition char_in (cs : pystr) (c : char) : bool :=
  existsb (N.eqb c) cs.

(** [s.startswith(l)], returning what follows [l]. *)
Fixpoint strip_prefix (l s : pystr) : option pystr :=
  match l with
  | [] => Some s
  | a :: l' =>
      match s with
      | [] => None
      | b :: s' => if N.eqb a b then strip_prefix l' s' else None
      end
  end.

(** The longest prefix of [s] whose characters all satisfy [p]. *)
Fixpoint span (p : char -> bool) (s : pystr) : pystr :=
  match s with
  | c :: s' => if p c then c :: span p s' else []
  | [] => []
  end.

(** [sep.join(parts)] *)
Fixpoint join (sep : pystr) (parts : list pystr) : pystr :=
  match parts with
  | [] => []
  | [x] => x
  | x :: rest => x ++ sep ++ join sep rest
  end.

End Py.
Import Py.

(** ** Regular expressions, as far as the scripts use them *)

Module Re.

Inductive regex : Type :=
| Lit (l : pystr)                 (* a run of literal characters *)
| Cat (r1 r2 : regex)             (* r1 r2 *)
| Or (r1 r2 : regex)              (* r1|r2 *)
| Star (p : char -> bool)         (* X*, X a character set, greedy *)
| Plus (p : char -> bool)         (* X+, X a character set, greedy *)
| Group (r : regex).              (* ( r ), capturing group 1 *)

Section Matcher.
Context {A : Type}.

(** Greedy repetition: take as many characters of the set as possible,
    and give one back at a time while the rest of the pattern fails. *)
Fixpoint rep (p : char -> bool) (s : pystr) (k : pystr -> option A)
  : option A :=
  match s with
  | c :: s' =>
      if p c then
        match rep p s' k with
        | Some a => Some a
        | None => k s
        end
      else k s
  | [] => k s
  end.

(** [run r s g k]: match [r] at the front of [s], with [g] the current
    content of group 1, and continue with [k] on what is left.  A failing
    continuation makes the matcher backtrack. *)
Fixpoint run (r : regex) (s : pystr) (g : option pystr)
  (k : pystr -> option pystr -> option A) : option A :=
  match r with
  | Lit l =>
      match strip_prefix l s with
      | Some s' => k s' g
      | None => None
      end
  | Cat r1 r2 => run r1 s g (fun s' g' => run r2 s' g' k)
  | Or r1 r2 =>
      match run r1 s g k with
      | Some a => Some a
      | None => run r2 s g k
      end
  | Star p => rep p s (fun s' => k s' g)
  | Plus p =>
      match s with
      | c :: s' => if p c then rep p s' (fun s'' => k s'' g) else None
      | [] => None
      end
  | Group r' =>
      run r' s g (fun s' _ => k s' (Some (take (length s - length s') s)))
  end.
End Matcher.

(** A match object: where the match starts, the input after the match,
    and [group(1)] ([None] when the group took no part). *)
Record match_obj : Type := MatchObj {
  m_start : nat;
  m_rest : pystr;
  group1 : option pystr
}.

(** [re.match]-like: try the pattern at the front of [s] only. *)
Definition match_here (r : regex) (s : pystr) : option (pystr * option pystr) :=
  run r s None (fun s' g => Some (s', g)).

Fixpoint search_from (r : regex) (i : nat) (s : pystr) : option match_obj :=
  match match_here r s with
  | Some (rest, g) => Some (MatchObj i rest g)
  | None =>
      match s with
      | [] => None
      | _ :: s' => search_from r (S i) s'
      end
  end.

(** [re.search(pattern, s)]: the leftmost position where the pattern
    matches. *)
Definition search (r : regex) (s : pystr) : option match_obj :=
  search_from r 0 s.

(** [re.sub(pattern, repl, s)] for a replacement without group references:
    every non-overlapping match, left to right, is replaced.  [skip] counts
    the characters of the last match still to be passed over. *)
Fixpoint sub_from (r : regex) (repl : pystr) (skip : nat) (s : pystr) : pystr :=
  match s with
  | [] =>
      match skip, match_here r [] with
      | O, Some _ => repl
      | _, _ => []
      end
  | c :: s' =>
      match skip with
      | S n => sub_from r repl n s'
      | O =>
          match match_here r s with
          | Some (rest, _) =>
              match length s - length rest with
              | O => repl ++ c :: sub_from r repl 0 s'
              | S n => repl ++ sub_from r repl n s'
              end
          | None => c :: sub_from r repl 0 s'
          end
      end
  end.

Definition sub (r : regex) (repl s : pystr) : pystr := sub_from r repl 0 s.

End Re.
Import Re.

(** ** The patterns of the two scripts *)

Module Patterns.

(** [[^&\n?#]]: anything but ampersand, newline, question mark, hash. *)
Definition id_char (c : char) : bool := negb (char_in (py "&?#" ++ [newline]) c).

(** [.] without DOTALL: anything but a newline. *)
Definition dot (c : char) : bool := negb (N.eqb c newline).

Definition watch_marker : pystr := py "youtube.com/watch?v=".
Definition short_marker : pystr := py "youtu.be/".
Definition embed_marker : pystr := py "youtube.com/embed/".
Definition v_marker : pystr := py "youtube.com/v/".

(** [(?:youtube\.com\/watch\?v=|youtu\.be\/|youtube\.com\/embed\/)([^&\n?#]+)] *)
Definition main_pattern : regex :=
  Cat (Or (Lit watch_marker) (Or (Lit short_marker) (Lit embed_marker)))
      (Group (Plus id_char)).

(** [youtube\.com\/watch\?.*v=([^&\n?#]+)] *)
Definition watch_any_pattern : regex :=
  Cat (Lit (py "youtube.com/watch?"))
      (Cat (Star dot) (Cat (Lit (py "v=")) (Group (Plus id_char)))).

(** [youtube\.com\/v\/([^&\n?#]+)] *)
Definition v_pattern : regex :=
  Cat (Lit v_marker) (Group (Plus id_char)).

(** The loop shared by both [extract_video_id]s: the first pattern that
    matches anywhere decides, and its [group(1)] is returned. *)
Fixpoint first_match (patterns : list regex) (url : pystr) : option pystr :=
  match patterns with
  | [] => None
  | pattern :: rest =>
      match search pattern url with
      | Some m => group1 m
      | None => first_match rest url
      end
  end.

End Patterns.
Import Patterns.

(** ** Python values, exceptions and effects *)

Module Rt.

(** The values the scripts build and print.  A dict keeps its insertion
    order, which is the order [json.dumps] prints. *)
Inductive value : Type :=
| VNone
| VStr (s : pystr)
| VInt (n : Z)
| VFloat (f : spec_float)
| VList (l : list value)
| VDict (d : list (pystr * value)).

(** An exception of class [Exception]: its class name and [str(e)]. *)
Inductive exn : Type := Exn (cls : string) (msg : pystr).

Definition str_exn (e : exn) : pystr := let 'Exn _ msg := e in msg.

(** What a call does to the outside world. *)
Inductive printed : Type :=
| Json (indent : option nat) (v : value)     (* print(json.dumps(v, indent=..)) *)
| Text (s : pystr).                          (* print(s) *)

Inductive effect : Type :=
| HttpGet (url : pystr)
| Print (p : printed).

(** A computation: the effects it performed, then an exception or a value. *)
Definition M (A : Type) : Type := list effect * (exn + A).

Definition ret {A} (a : A) : M A := ([], inr a).
Definition raise {A} (e : exn) : M A := ([], inl e).
Definition lift {A} (r : exn + A) : M A := ([], r).
Definition emit (ev : effect) : M unit := ([ev], inr tt).

Definition bind {A B} (c : M A) (f : A -> M B) : M B :=
  match c with
  | (t, inl e) => (t, inl e)
  | (t, inr a) => let '(t', r) := f a in (t ++ t', r)
  end.

(** [try: body  except Exception as e: handler(e)] *)
Definition try_except {A} (body : M A) (handler : exn -> M A) : M A :=
  match body with
  | (t, inl e) => let '(t', r) := handler e in (t ++ t', r)
  | (t, inr a) => (t, inr a)
  end.

Fixpoint mapM {A B} (f : A -> M B) (l : list A) : M (list B) :=
  match l with
  | [] => ret []
  | x :: rest =>
      bind (f x) (fun y => bind (mapM f rest) (fun ys => ret (y :: ys)))
  end.

Definition trace {A} (c : M A) : list effect := fst c.
Definition outcome {A} (c : M A) : exn + A := snd c.

(** The exit status of [python script.py]: 0 when the script runs to its
    end, 1 when an exception escapes. *)
Definition exit_status (c : M unit) : Z :=
  match outcome c with
  | inr _ => 0
  | inl _ => 1
  end.

(** [if not x] on an optional string: [None] and the empty string are
    false. *)
Definition truthy (x : option pystr) : option pystr :=
  match x with
  | Some (c :: s) => Some (c :: s)
  | _ => None
  end.

Definition str_of_nat (n : nat) : pystr :=
  py (NilZero.string_of_uint (Nat.to_uint n)).

Definition hex_digit (n : N) : char :=
  if (n <? 10)%N then (48 + n)%N else (87 + n)%N.

(** [%02x] of a byte *)
Definition hex2 (b : N) : pystr :=
  [hex_digit (b / 16); hex_digit (b mod 16)].

End Rt.
Import Rt.

Declare Scope py_scope.
Delimit Scope py_scope with py_m.
Notation "'do' x <- c ; k" := (bind c (fun x => k))
  (at level 10, x name, c at level 100, k at level 200) : py_scope.
Open Scope py_scope.

(** ** [urllib.parse], as far as the command-line script calls it

    [urlsplit] and [parse_qs] follow CPython 3.11's [urllib/parse.py].  The
    parts that need other modules are taken from the library record:
    percent-decoding, the IPv6 literal check and the NFKC check. *)

Module UrlParse.

Record UrlLib : Type := {
  unquote : pystr -> pystr;
  check_bracketed_netloc : pystr -> option exn;
  nfkc_check : pystr -> option exn
}.

Definition scheme_chars : pystr :=
  py "abcdefghijklmnopqrstuvwxyzABCDEFGHIJKLMNOPQRSTUVWXYZ0123456789+-.".

(** [_WHATWG_C0_CONTROL_OR_SPACE] *)
Definition c0_control_or_space (c : char) : bool := (c <=? 32)%N.

(** [_UNSAFE_URL_BYTES_TO_REMOVE] *)
Definition unsafe_url_char (c : char) : bool := char_in [9; 13; 10]%N c (* tab, CR, LF *).

Definition ascii_alpha (c : char) : bool :=
  ((65 <=? c) && (c <=? 90) || (97 <=? c) && (c <=? 122))%N.

(** [s.find(c)] *)
Fixpoint find_char (c : char) (s : pystr) : option nat :=
  match s with
  | [] => None
  | x :: s' => if N.eqb x c then Some O else S <$> find_char c s'
  end.

Fixpoint lstrip (p : char -> bool) (s : pystr) : pystr :=
  match s with
  | c :: s' => if p c then lstrip p s' else s
  | [] => []
  end.

(** [s.split(sep)] for a one-character separator *)
Fixpoint split_on (sep : char) (s : pystr) : list pystr :=
  match s with
  | [] => [[]]
  | c :: s' =>
      match split_on sep s' with
      | first :: rest =>
          if N.eqb c sep then [] :: first :: rest else (c :: first) :: rest
      | [] => [[c]]
      end
  end.

(** [s.split(sep, 1)] when [sep] occurs in [s] *)
Definition split_once (sep : char) (s : pystr) : option (pystr * pystr) :=
  i ← find_char sep s; Some (take i s, drop (S i) s).

(** [_splitnetloc(url, 2)] on a [url] that starts with two slashes *)
Definition splitnetloc (url : pystr) : pystr * pystr :=
  let body := drop 2 url in
  let n := length (span (fun c => negb (char_in (py "/?#") c)) body) in
  (take n body, drop n body).

(** The scheme, when [url] starts with one: [url] without it *)
Definition drop_scheme (url : pystr) : pystr :=
  match find_char (ch ":") url, url with
  | Some (S i), c0 :: _ =>
      if ascii_alpha c0 && forallb (char_in scheme_chars) (take (S i) url)
      then drop (S (S i)) url
      else url
  | _, _ => url
  end.

(** [urlsplit(url).query]; [urlparse] returns the same query. *)
Definition urlparse_query (lib : UrlLib) (url : pystr) : exn + pystr :=
  let url := lstrip c0_control_or_space url in
  let url := filter (fun c => negb (unsafe_url_char c)) url in
  let url := drop_scheme url in
  let '(netloc, url) :=
    match strip_prefix (py "//") url with
    | Some _ => splitnetloc url
    | None => ([], url)
    end in
  let has_open := char_in netloc (ch "[") in
  let has_close := char_in netloc (ch "]") in
  if has_open && negb has_close || has_close && negb has_open
  then inl (Exn "ValueError" (py "Invalid IPv6 URL"))
  else
    match (if has_open && has_close then check_bracketed_netloc lib netloc
           else None) with
    | Some e => inl e
    | None =>
        let url := match split_once (ch "#") url with
                   | Some (before, _) => before
                   | None => url
                   end in
        let query := match split_once (ch "?") url with
                     | Some (_, after) => after
                     | None => []
                     end in
        match (if forallb (fun c => (c <? 128)%N) netloc then None
               else nfkc_check lib netloc) with
        | Some e => inl e
        | None => inr query
        end
    end.

Definition plus_to_space (s : pystr) : pystr :=
  map (fun c => if N.eqb c (ch "+") then ch " " else c) s.

(** [parse_qsl(qs)] with its default arguments *)
Definition parse_qsl (lib : UrlLib) (qs : pystr) : list (pystr * pystr) :=
  let query_args := match qs with [] => [] | _ => split_on (ch "&") qs end in
  flat_map
    (fun name_value =>
       match name_value with
       | [] => []
       | _ =>
           match split_once (ch "=") name_value with
           | None => []
           | Some (n, v) =>
               match v with
               | [] => []
               | _ => [(unquote lib (plus_to_space n),
                        unquote lib (plus_to_space v))]
               end
           end
       end)
    query_args.

(** [parse_qs(qs)]: a dict from each name to the list of its values *)
Definition parse_qs (lib : UrlLib) (qs : pystr) : gmap pystr (list pystr) :=
  foldl
    (fun parsed_result '(name, v) =>
       match parsed_result !! name with
       | Some vs => <[name := vs ++ [v]]> parsed_result
       | None => <[name := [v]]> parsed_result
       end)
    ∅ (parse_qsl lib qs).

End UrlParse.
Import UrlParse.

(** ** [scripts/youtube_processor.py] *)

Module Cli.

Definition extract_video_id (url : pystr) : option pystr :=
  first_match [main_pattern; watch_any_pattern] url.

Definition get_video_info (lib : UrlLib) (url : pystr) : M value :=
  match truthy (extract_video_id url) with
  | None => ret (VDict [(py "error", VStr (py "Invalid YouTube URL"))])
  | Some video_id =>
      do query <- lift (urlparse_query lib url);
      let query_params := parse_qs lib query in
      do timestamp <-
        match query_params !! py "t" with
        | None => ret VNone
        | Some (t :: _) => ret (VStr t)
        | Some [] => raise (Exn "IndexError" (py "list index out of range"))
        end;
      ret (VDict [(py "video_id", VStr video_id);
                  (py "url", VStr url);
                  (py "timestamp", timestamp);
                  (py "title", VStr (py "YouTube Video " ++ video_id));
                  (py "description", VStr (py "Video processing available"))])
  end.

Definition get_transcript_placeholder (video_id : pystr) : value :=
  VDict [(py "video_id", VStr video_id);
         (py "transcript",
          VStr (py "Transcript extraction requires youtube-transcript-api library"));
         (py "language", VStr (py "auto"));
         (py "note", VStr (py "Use fetch MCP to get video page content for now"))].

(** [main()], with [argv] the whole of [sys.argv] (the script's name
    first). *)
Definition main (lib : UrlLib) (argv : list pystr) : M unit :=
  match argv with
  | [] | [_] =>
      emit (Print (Json None
        (VDict [(py "error", VStr (py "Please provide YouTube URL"))])))
  | _ :: url :: more =>
      let action := match more with a :: _ => a | [] => py "info" end in
      do result <-
        (if decide (action = py "info") then get_video_info lib url
         else if decide (action = py "transcript") then
           match truthy (extract_video_id url) with
           | Some video_id => ret (get_transcript_placeholder video_id)
           | None => ret (VDict [(py "error", VStr (py "Invalid URL"))])
           end
         else ret (VDict [(py "error", VStr (py "Unknown action"))]));
      emit (Print (Json (Some 2%nat) result))
  end.

End Cli.

(** ** The codecs and conversions [src/youtube-processor.py] calls

    [str.encode()] (UTF-8), [bytes.decode('unicode_escape')], [int()] on a
    run of digits and [str.strip()], after CPython 3.11. *)

Module Codec.

Definition bytes := list N.

Definition is_surrogate (c : char) : bool :=
  ((55296 <=? c) && (c <=? 57343))%N.

Definition utf8_encode_char (c : char) : bytes :=
  (if c <? 128 then [c]
   else if c <? 2048 then [192 + c / 64; 128 + c mod 64]
   else if c <? 65536 then
     [224 + c / 4096; 128 + (c / 64) mod 64; 128 + c mod 64]
   else [240 + c / 262144; 128 + (c / 4096) mod 64;
         128 + (c / 64) mod 64; 128 + c mod 64])%N.

Definition hex4 (c : N) : pystr :=
  (hex2 (c / 256) ++ hex2 (c mod 256))%N.

Definition position_range (start stop : nat) : pystr :=
  str_of_nat start ++ py "-" ++ str_of_nat (stop - 1).

Definition encode_error (c : char) (start stop : nat) : exn :=
  Exn "UnicodeEncodeError"
    (py "'utf-8' codec can't encode " ++
     (if decide (stop = S start)
      then py "character '\u" ++ hex4 c ++ py "' in position " ++ str_of_nat start
      else py "characters in position " ++ position_range start stop) ++
     py ": surrogates not allowed").

(** [s.encode()] *)
Fixpoint utf8_encode_from (pos : nat) (s : pystr) : exn + bytes :=
  match s with
  | [] => inr []
  | c :: s' =>
      if is_surrogate c
      then inl (encode_error c pos (pos + length (span is_surrogate s)))
      else match utf8_encode_from (S pos) s' with
           | inr b => inr (utf8_encode_char c ++ b)
           | inl e => inl e
           end
  end.

Definition encode (s : pystr) : exn + bytes := utf8_encode_from 0 s.

Definition decode_error (input : bytes) (start stop : nat) (reason : string) : exn :=
  Exn "UnicodeDecodeError"
    (py "'unicodeescape' codec can't decode " ++
     (if decide (stop = S start)
      then py "byte 0x" ++ hex2 (nth start input 0%N) ++
           py " in position " ++ str_of_nat start
      else py "bytes in position " ++ position_range start stop) ++
     py ": " ++ py reason).

Definition hex_value (c : N) : option N :=
  (if (48 <=? c) && (c <=? 57) then Some (c - 48)
   else if (97 <=? c) && (c <=? 102) then Some (c - 87)
   else if (65 <=? c) && (c <=? 70) then Some (c - 55)
   else None)%N.

Definition octal_value (c : N) : option N :=
  (if (48 <=? c) && (c <=? 55) then Some (c - 48) else None)%N.

(** What one escape sequence gives: characters and the number of bytes
    read after the backslash, or the number of bytes read before the
    fault and its reason. *)
Inductive escape_result : Type :=
| Decoded (out : pystr) (read : nat)
| Faulty (read : nat) (reason : string).

(** Up to [count] hexadecimal digits; [read] counts the bytes read since
    the backslash. *)
Fixpoint hex_escape (count : nat) (acc : N) (read : nat) (s : bytes)
  (reason : string) : escape_result :=
  match count with
  | O =>
      if (1114111 <? acc)%N then Faulty read "illegal Unicode character"
      else Decoded [acc] read
  | S count' =>
      match s with
      | [] => Faulty read reason
      | c :: s' =>
          match hex_value c with
          | Some d => hex_escape count' (acc * 16 + d)%N (S read) s' reason
          | None => Faulty read reason
          end
      end
  end.

Definition octal_escape (d0 : N) (s : bytes) : escape_result :=
  match s with
  | c1 :: s1 =>
      match octal_value c1 with
      | Some d1 =>
          match s1 with
          | c2 :: _ =>
              match octal_value c2 with
              | Some d2 => Decoded [((d0 * 8 + d1) * 8 + d2)%N] 3
              | None => Decoded [(d0 * 8 + d1)%N] 2
              end
          | [] => Decoded [(d0 * 8 + d1)%N] 2
          end
      | None => Decoded [d0] 1
      end
  | [] => Decoded [d0] 1
  end.

Definition not_close_brace (c : N) : bool := negb (N.eqb c (ch "}")).

(** [\N{name}], with [getcode] the Unicode name table; [s] follows the N *)
Definition name_escape (getcode : bytes -> option char) (s : bytes)
  : escape_result :=
  match s with
  | c :: s' =>
      if N.eqb c (ch "{") then
        let name := span not_close_brace s' in
        match name, drop (length name) s' with
        | _ :: _, _ :: _ =>
            match getcode name with
            | Some c' => Decoded [c'] (3 + length name)
            | None => Faulty (3 + length name) "unknown Unicode character name"
            end
        | _, _ => Faulty (2 + length name) "malformed \N character escape"
        end
      else Faulty 1 "malformed \N character escape"
  | [] => Faulty 1 "malformed \N character escape"
  end.

(** The escape whose backslash has just been read; [s] follows it. *)
Definition escape (getcode : bytes -> option char) (s : bytes) : escape_result :=
  match s with
  | [] => Faulty 0 "\ at end of string"
  | c :: s' =>
      if N.eqb c newline then Decoded [] 1
      else if N.eqb c (ch "\") then Decoded [ch "\"] 1
      else if N.eqb c (ch "'") then Decoded [ch "'"] 1
      else if N.eqb c 34 then Decoded [34%N] 1
      else if N.eqb c (ch "b") then Decoded [8%N] 1
      else if N.eqb c (ch "f") then Decoded [12%N] 1
      else if N.eqb c (ch "t") then Decoded [9%N] 1
      else if N.eqb c (ch "n") then Decoded [10%N] 1
      else if N.eqb c (ch "r") then Decoded [13%N] 1
      else if N.eqb c (ch "v") then Decoded [11%N] 1
      else if N.eqb c (ch "a") then Decoded [7%N] 1
      else if N.eqb c (ch "x") then hex_escape 2 0 1 s' "truncated \xXX escape"
      else if N.eqb c (ch "u") then hex_escape 4 0 1 s' "truncated \uXXXX escape"
      else if N.eqb c (ch "U") then
        hex_escape 8 0 1 s' "truncated \UXXXXXXXX escape"
      else if N.eqb c (ch "N") then name_escape getcode s'
      else match octal_value c with
           | Some d0 => octal_escape d0 s'
           | None => Decoded [ch "\"; c] 1
           end
  end.

(** The decoding loop.  [skip] counts the bytes of the current escape
    still to pass over, [pos] is the index of the head of [s] in
    [input]. *)
Fixpoint unicode_escape_from (getcode : bytes -> option char) (input : bytes)
  (skip pos : nat) (s : bytes) : exn + pystr :=
  match s with
  | [] => inr []
  | c :: s' =>
      match skip with
      | S n => unicode_escape_from getcode input n (S pos) s'
      | O =>
          if N.eqb c (ch "\") then
            match escape getcode s' with
            | Decoded out read =>
                match unicode_escape_from getcode input read (S pos) s' with
                | inr t => inr (out ++ t)
                | inl e => inl e
                end
            | Faulty read reason =>
                inl (decode_error input pos (S pos + read) reason)
            end
          else
            match unicode_escape_from getcode input 0 (S pos) s' with
            | inr t => inr (c :: t)
            | inl e => inl e
            end
      end
  end.

(** [b.decode('unicode_escape')] *)
Definition unicode_escape_decode (getcode : bytes -> option char) (b : bytes)
  : exn + pystr :=
  unicode_escape_from getcode b 0 0 b.

(** [str.isspace()] of one character *)
Definition is_space (c : char) : bool :=
  ((9 <=? c) && (c <=? 13) || (28 <=? c) && (c <=? 32)
   || char_in [133; 160; 5760; 8232; 8233; 8239; 8287; 12288] c
   || (8192 <=? c) && (c <=? 8202))%N.

(** [s.strip()] *)
Definition strip (s : pystr) : pystr :=
  rev (lstrip is_space (rev (lstrip is_space s))).

(** The decimal digit value of a character ([Py_UNICODE_TODECIMAL]);
    [table] gives it for the characters outside ASCII. *)
Definition to_decimal (table : char -> option N) (c : char) : option N :=
  (if (48 <=? c) && (c <=? 57) then Some (c - 48)
   else if c <? 128 then None
   else table c)%N.

Fixpoint digits_value (table : char -> option N) (acc : Z) (s : pystr)
  : option Z :=
  match s with
  | [] => Some acc
  | c :: s' =>
      match to_decimal table c with
      | Some d => digits_value table (acc * 10 + Z.of_N d)%Z s'
      | None => None
      end
  end.

(** [int(s)] for [s] a run of decimal digits, which is what [\d+]
    captures.  [max_str_digits] is [sys.get_int_max_str_digits()], 0 when
    there is no limit.  Signs, spaces and underscores, which [int] also
    reads, never reach this call and are not modelled. *)
Definition int_of_digits (table : char -> option N) (max_str_digits : nat)
  (s : pystr) : exn + Z :=
  match s, digits_value table 0 s with
  | _ :: _, Some n =>
      if decide (640 < length s ∧ 0 < max_str_digits
                 ∧ max_str_digits < length s)%nat
      then inl (Exn "ValueError"
             (py "Exceeds the limit (" ++ str_of_nat max_str_digits ++
              py " digits) for integer string conversion: value has " ++
              str_of_nat (length s) ++
              py " digits; use sys.set_int_max_str_digits() to increase the limit"))
      else inr n
  | _, _ => inl (Exn "ValueError" (py "invalid literal for int() with base 10"))
  end.

End Codec.
Import Codec.

(** ** [src/youtube-processor.py] *)

Module Processor.

(** [requests.Response], as far as it is read *)
Record Response : Type := {
  status_code : Z;
  text : pystr
}.

(** [xml.etree.ElementTree.Element]: tag, attributes, the text before the
    first child, and the children in document order *)
Inductive Element : Type :=
| Elem (tag : pystr) (attrib : gmap pystr pystr) (elem_text : option pystr)
       (children : list Element).

Definition tag (e : Element) : pystr := let 'Elem t _ _ _ := e in t.
Definition attrib (e : Element) : gmap pystr pystr := let 'Elem _ a _ _ := e in a.
Definition elem_text (e : Element) : option pystr := let 'Elem _ _ t _ := e in t.
Definition children (e : Element) : list Element := let 'Elem _ _ _ c := e in c.

(** What the class takes from outside the repository: the HTTP session,
    the XML parser, [float()] of a string, the Unicode tables and the
    interpreter's limit on integer literals. *)
Record Runtime : Type := {
  session_get : pystr -> exn + Response;
  fromstring : pystr -> exn + Element;
  float_of_str : pystr -> exn + spec_float;
  unicode_decimal : char -> option N;
  unicode_name : bytes -> option char;
  max_str_digits : nat
}.

(** [self.session.get(url)] *)
Definition get (self : Runtime) (url : pystr) : M Response :=
  do _ <- emit (HttpGet url); lift (session_get self url).

(** [elem.iter()]: the element, then its descendants, in document order *)
Fixpoint iter (e : Element) : list Element :=
  match e with
  | Elem _ _ _ cs =>
      e :: (fix iter_all (l : list Element) : list Element :=
              match l with
              | [] => []
              | c :: l' => iter c ++ iter_all l'
              end) cs
  end.

(** [root.findall('.//' + name)]: every descendant of [root] with that
    tag, [root] itself left out *)
Definition findall_descendants (name : pystr) (root : Element) : list Element :=
  filter (fun e => tag e = name) (flat_map iter (children root)).

Definition quote : pystr := [34%N].

(** The set written with a caret and a double quote in brackets: every
    character but the double quote *)
Definition not_quote (c : char) : bool := negb (N.eqb c 34).

(** [\d] *)
Definition digit (self : Runtime) (c : char) : bool :=
  bool_decide (is_Some (to_decimal (unicode_decimal self) c)).

(** The title pattern: the key [title] in double quotes, a colon, and in
    double quotes the captured run of one or more non-quote characters *)
Definition title_pattern : regex :=
  Cat (Lit (quote ++ py "title" ++ quote ++ py ":" ++ quote))
      (Cat (Group (Plus not_quote)) (Lit quote)).

(** The same shape with the key [shortDescription] *)
Definition description_pattern : regex :=
  Cat (Lit (quote ++ py "shortDescription" ++ quote ++ py ":" ++ quote))
      (Cat (Group (Plus not_quote)) (Lit quote)).

(** The key [lengthSeconds] with a captured run [(\d+)] between the
    double quotes *)
Definition duration_pattern (self : Runtime) : regex :=
  Cat (Lit (quote ++ py "lengthSeconds" ++ quote ++ py ":" ++ quote))
      (Cat (Group (Plus (digit self))) (Lit quote)).

Definition extract_video_id (url : pystr) : option pystr :=
  first_match [main_pattern; v_pattern] url.

(** [s.encode().decode('unicode_escape')]; on [None] the attribute lookup
    fails. *)
Definition unescape (self : Runtime) (s : option pystr) : M pystr :=
  match s with
  | Some s =>
      do b <- lift (encode s);
      lift (unicode_escape_decode (unicode_name self) b)
  | None =>
      raise (Exn "AttributeError"
               (py "'NoneType' object has no attribute 'encode'"))
  end.

(** [int(g)] for a group of [duration_pattern] *)
Definition int (self : Runtime) (g : option pystr) : M Z :=
  match g with
  | Some s => lift (int_of_digits (unicode_decimal self) (max_str_digits self) s)
  | None =>
      raise (Exn "TypeError"
               (py "int() argument must be a string, a bytes-like object or a real number, not 'NoneType'"))
  end.

Definition error (msg : pystr) : value := VDict [(py "error", VStr msg)].

(** The three addresses the class requests *)
Definition watch_url (video_id : pystr) : pystr :=
  py "https://www.youtube.com/watch?v=" ++ video_id.
Definition captions_url (video_id : pystr) : pystr :=
  py "https://www.youtube.com/api/timedtext?type=list&v=" ++ video_id.
Definition transcript_url (lang video_id : pystr) : pystr :=
  py "https://www.youtube.com/api/timedtext?lang=" ++ lang ++ py "&v=" ++ video_id.

(** The three extractions of [get_video_info], each with its default *)
Definition title_of (html : pystr) : option pystr :=
  match search title_pattern html with
  | Some title_match => group1 title_match
  | None => Some (py "Unknown Title")
  end.

Definition description_of (html : pystr) : option pystr :=
  match search description_pattern html with
  | Some desc_match => group1 desc_match
  | None => Some (py "No description")
  end.

Definition duration_of (self : Runtime) (html : pystr) : M Z :=
  match search (duration_pattern self) html with
  | Some duration_match => int self (group1 duration_match)
  | None => ret 0%Z
  end.

Definition video_info (video_id title description : pystr) (duration : Z)
  (url : pystr) : value :=
  VDict [(py "video_id", VStr video_id);
         (py "title", VStr title);
         (py "description", VStr description);
         (py "duration", VInt duration);
         (py "url", VStr url);
         (py "thumbnail",
          VStr (py "https://img.youtube.com/vi/" ++ video_id ++
                py "/maxresdefault.jpg"))].

Definition get_video_info (self : Runtime) (url : pystr) : M value :=
  match truthy (extract_video_id url) with
  | None => ret (error (py "Invalid YouTube URL"))
  | Some video_id =>
      try_except
        (do response <- get self (watch_url video_id);
         let html := text response in
         let title := title_of html in
         let description := description_of html in
         do duration <- duration_of self html;
         do title' <- unescape self title;
         do description' <- unescape self description;
         ret (video_info video_id title' description' duration url))
        (fun e => ret (error (py "Failed to get video info: " ++ str_exn e)))
  end.

Definition caption (video_id : pystr) (track : Element) : value :=
  let lang_code := default (py "en") (attrib track !! py "lang_code") in
  let name := default lang_code (attrib track !! py "name") in
  VDict [(py "lang_code", VStr lang_code);
         (py "name", VStr name);
         (py "url",
          VStr (transcript_url lang_code video_id))].

(** The body of the [try] gives [Some captions] when it returns, [None]
    when control falls through to the final [return []]. *)
Definition get_transcript_urls (self : Runtime) (video_id : pystr)
  : M (list value) :=
  do returned <-
    try_except
      (do response <- get self (captions_url video_id);
       if decide (status_code response = 200%Z) then
         do root <- lift (fromstring self (text response));
         ret (Some (map (caption video_id)
                        (findall_descendants (py "track") root)))
       else ret None)
      (fun e =>
         do _ <- emit (Print (Text (py "Caption extraction error: " ++ str_exn e)));
         ret None);
  match returned with
  | Some captions => ret captions
  | None => ret []
  end.

(** [float(elem.get(name, 0))] *)
Definition float_attr (self : Runtime) (elem : Element) (name : pystr)
  : M spec_float :=
  match attrib elem !! name with
  | Some s => lift (float_of_str self s)
  | None => ret (S754_zero false)
  end.

(** The three [re.sub] calls of the clean-up, in their order *)
Definition clean_up (t : pystr) : pystr :=
  let t := sub (Lit (py "&amp;")) (py "&") t in
  let t := sub (Lit (py "&lt;")) (py "<") t in
  sub (Lit (py "&gt;")) (py ">") t.

Definition segment_text (text_elem : Element) : pystr :=
  strip (clean_up (default [] (elem_text text_elem))).

Definition segment (self : Runtime) (text_elem : Element) : M value :=
  do start_time <- float_attr self text_elem (py "start");
  do duration <- float_attr self text_elem (py "dur");
  ret (VDict [(py "start", VFloat start_time);
              (py "duration", VFloat duration);
              (py "text", VStr (segment_text text_elem))]).

(** [part['text']] of a dict built by [segment] *)
Definition part_text (part : value) : pystr :=
  match part with
  | VDict [_; _; (_, VStr t)] => t
  | _ => []
  end.

Definition get_transcript (self : Runtime) (url lang : pystr) : M value :=
  match truthy (extract_video_id url) with
  | None => ret (error (py "Invalid YouTube URL"))
  | Some video_id =>
      try_except
        (do response <- get self (transcript_url lang video_id);
         if decide (status_code response = 200%Z) then
           do root <- lift (fromstring self (text response));
           do transcript_parts <-
             mapM (segment self) (findall_descendants (py "text") root);
           ret (VDict
                  [(py "video_id", VStr video_id);
                   (py "language", VStr lang);
                   (py "transcript", VList transcript_parts);
                   (py "full_text",
                    VStr (join (py " ") (map part_text transcript_parts)))])
         else ret (error (py "No transcript available for this video")))
        (fun e => ret (error (py "Failed to get transcript: " ++ str_exn e)))
  end.

(** [main()], the self-test at the end of the file: the processor is
    built, then asked for the metadata and for the transcript of one fixed
    address, and everything is printed. *)
Definition test_url : pystr := py "https://www.youtube.com/watch?v=dQw4w9WgXcQ".

(** ["=" * 50] *)
Definition rule : pystr := replicate 50 (ch "=").

Definition main (processor : Runtime) : M unit :=
  do _ <- emit (Print (Text (py "Testing YouTube Processor...")));
  do _ <- emit (Print (Text rule));
  do _ <- emit (Print (Text (py "Getting video info...")));
  do info <- get_video_info processor test_url;
  do _ <- emit (Print (Json (Some 2%nat) info));
  do _ <- emit (Print (Text (newline :: rule)));
  do _ <- emit (Print (Text (py "Getting transcript...")));
  do transcript <- get_transcript processor test_url (py "en");
  emit (Print (Json (Some 2%nat) transcript)).

End Processor.

(** ** The vocabulary of the specification *)

Module Spec.

(** [w] is a prefix of [s]. *)
Definition starts_with (w s : pystr) : bool :=
  match strip_prefix w s with
  | Some _ => true
  | None => false
  end.

(** [w] occurs in [s] at an index below [n]. *)
Fixpoint occurs_within (n : nat) (w s : pystr) : bool :=
  match n with
  | O => false
  | S n' =>
      starts_with w s ||
      match s with
      | [] => false
      | _ :: s' => occurs_within n' w s'
      end
  end.

(** [w in s] *)
Definition occurs (w s : pystr) : bool := occurs_within (S (length s)) w s.

(** The markers of the pattern both scripts try first, and the four
    markers the specification lists. *)
Definition main_markers : list pystr :=
  [watch_marker; short_marker; embed_marker].
Definition supported_markers : list pystr :=
  [watch_marker; short_marker; embed_marker; v_marker].

(** None of [markers] occurs in [s] at an index below [n]. *)
Definition free_of (markers : list pystr) (n : nat) (s : pystr) : bool :=
  forallb (fun w => negb (occurs_within n w s)) markers.

(** The substring from the front of [tail] to the first ampersand,
    question mark, hash or newline, or to the end. *)
Definition id_span (tail : pystr) : pystr := span id_char tail.

(** Unescaping the three entities in one pass from left to right: each
    occurrence of an entity stands for its character, and the character
    so obtained is not read again. *)
Fixpoint unescape_entities_from (skip : nat) (s : pystr) : pystr :=
  match s with
  | [] => []
  | c :: s' =>
      match skip with
      | S n => unescape_entities_from n s'
      | O =>
          if starts_with (py "&amp;") s then ch "&" :: unescape_entities_from 4 s'
          else if starts_with (py "&lt;") s then ch "<" :: unescape_entities_from 3 s'
          else if starts_with (py "&gt;") s then ch ">" :: unescape_entities_from 3 s'
          else c :: unescape_entities_from 0 s'
      end
  end.

Definition unescape_entities (s : pystr) : pystr := unescape_entities_from 0 s.

(** The key of a JSON-like pattern: the name in double quotes, a colon and
    the opening double quote of the value. *)
Definition key (name : string) : pystr :=
  Processor.quote ++ py name ++ Processor.quote ++ py ":" ++ Processor.quote.

(** The shape of the three patterns of [get_video_info]: the key, a
    captured run of characters of the set [p], the closing double quote *)
Definition keyed (name : string) (p : char -> bool) : regex :=
  Cat (Lit (key name)) (Cat (Group (Plus p)) (Lit Processor.quote)).

(** [w] occurs nowhere in [t]. *)
Definition nowhere (w t : pystr) : Prop :=
  forall j, starts_with w (drop j t) = false.

(** A pattern whose last item is a captured [X+]. *)
Fixpoint ends_in_group (r : regex) : Prop :=
  match r with
  | Cat _ r2 => ends_in_group r2
  | Group (Plus _) => True
  | _ => False
  end.

(** The three passes of the clean-up, one [re.sub] each *)
Definition amp_pass : pystr -> pystr := sub (Lit (py "&amp;")) (py "&").
Definition lt_pass : pystr -> pystr := sub (Lit (py "&lt;")) (py "<").
Definition gt_pass : pystr -> pystr := sub (Lit (py "&gt;")) (py ">").

(** No whitespace at either end *)
Definition trimmed (s : pystr) : Prop :=
  (forall c, head s = Some c -> is_space c = false)
  /\ (forall c, last s = Some c -> is_space c = false).

(** [float()] accepts the [start] and [dur] attributes the element has. *)
Definition floats_accepted (self : Processor.Runtime) (e : Processor.Element)
  : Prop :=
  forall name s,
    name ∈ [py "start"; py "dur"] -> Processor.attrib e !! name = Some s ->
    exists f, Processor.float_of_str self s = inr f.

(** [part] is the segment of the element [e]: its two numbers read by
    [float_attr] and its text. *)
Definition segment_of (self : Processor.Runtime) (e : Processor.Element)
  (part : value) : Prop :=
  exists start duration,
    part = VDict [(py "start", VFloat start);
                  (py "duration", VFloat duration);
                  (py "text", VStr (Processor.segment_text e))]
    /\ Processor.float_attr self e (py "start") = ([], inr start)
    /\ Processor.float_attr self e (py "dur") = ([], inr duration).


(** The escapes of a captured string can be decoded. *)
Definition decodes (self : Processor.Runtime) (v : pystr) : Prop :=
  exists t, outcome (Processor.unescape self (Some v)) = inr t.

(** A run of digits is within the interpreter's limit on integer
    literals. *)
Definition within_int_limit (self : Processor.Runtime) (v : pystr) : Prop :=
  length v <= 640 \/ Processor.max_str_digits self = 0
  \/ length v <= Processor.max_str_digits self.

End Spec.
Import Spec.

(** ** Sample libraries and inputs *)

Module Samples.
Import Processor.

(** A [urllib] whose strings hold no percent escapes and whose host
    checks pass *)
Definition plain_lib : UrlLib :=
  {| unquote := fun s => s;
     check_bracketed_netloc := fun _ => None;
     nfkc_check := fun _ => None |}.

(** The doubles 1.5 and 2.0 *)
Definition float_1_5 : spec_float := S754_finite false 6755399441055744 (-52).
Definition float_2_0 : spec_float := S754_finite false 4503599627370496 (-51).

(** [float] on the two literals of the transcript example; any other
    string is refused, as [float('abc')] is. *)
Definition sample_float (s : pystr) : exn + spec_float :=
  if decide (s = py "1.5") then inr float_1_5
  else if decide (s = py "2.0") then inr float_2_0
  else inl (Exn "ValueError"
              (py "could not convert string to float: '" ++ s ++ py "'")).

(** A runtime whose session answers every request with [reply] and whose
    XML parser returns [tree]. *)
Definition fixed_runtime (reply : exn + Response) (tree : exn + Element)
  : Runtime :=
  {| session_get := fun _ => reply;
     fromstring := fun _ => tree;
     float_of_str := sample_float;
     unicode_decimal := fun _ => None;
     unicode_name := fun _ => None;
     max_str_digits := 4300 |}.

Definition ok (body : pystr) : exn + Response :=
  inr {| status_code := 200; text := body |}.

Definition not_found : exn + Response :=
  inr {| status_code := 404; text := [] |}.

Definition no_tree : exn + Element :=
  inl (Exn "ParseError" (py "no element found: line 1, column 0")).

(** A [text] element with both attributes, and a transcript that holds
    it *)
Definition text_elem (start dur txt : pystr) : Element :=
  Elem (py "text") {[ py "start" := start; py "dur" := dur ]} (Some txt) [].

Definition transcript_of (elems : list Element) : Element :=
  Elem (py "transcript") ∅ None elems.

(** The body of the transcript example *)
Definition example_body : pystr :=
  py "<transcript><text start='1.5' dur='2.0'>A &amp;B</text></transcript>".

(** A transcript whose only segment has a start that is no number *)
Definition bad_start_body : pystr :=
  py "<transcript><text start='abc' dur='2.0'>x</text></transcript>".

(** A page whose title holds an escaped double quote, and no description
    or duration *)
Definition quoted_title_page : pystr :=
  py "{" ++ key "title" ++ py "Say \" ++ quote ++ py "hi\" ++ quote ++ quote ++ py "}".

(** A page with the title of the decoding example *)
Definition example_page : pystr :=
  py "<script>{" ++ key "title" ++ py "Foo\u0026Bar" ++ quote ++ py "}</script>".

(** A page with two titles, the second one that of the decoding example *)
Definition two_titles_page : pystr :=
  py "{" ++ key "title" ++ py "A" ++ quote ++ py "," ++
  key "title" ++ py "Foo\u0026Bar" ++ quote ++ py "}".

(** A page with the title of the decoding example and a description that
    holds an escaped double quote *)
Definition quoted_description_page : pystr :=
  py "{" ++ key "title" ++ py "Foo\u0026Bar" ++ quote ++ py "," ++
  key "shortDescription" ++ py "x\" ++ quote ++ py "y" ++ quote ++ py "}".

End Samples.
Import Samples.

(** ** Further vocabulary *)

Module Notions.
Import Processor.

(** [id] is a run of identifier characters that stops [post]: nothing but
    the end of the string or one of ampersand, question mark, hash and
    newline follows it. *)
Definition stops_at (id post : pystr) : Prop :=
  forallb id_char id = true
  /\ (post = [] \/ exists c post', post = c :: post' /\ id_char c = false).

(** The text that stands before an id in a URL the command-line script
    accepts: it ends in one of the three markers of the first pattern, or in
    [youtube.com/watch?], some characters of one line, and [v=]. *)
Definition cli_lead (lead : pystr) : Prop :=
  (exists pre marker, lead = pre ++ marker /\ marker ∈ main_markers)
  \/ (exists pre params,
        lead = pre ++ py "youtube.com/watch?" ++ params ++ py "v="
        /\ forallb dot params = true).

(** The markers of which one must occur for the command-line script to
    find an id. *)
Definition cli_markers : list pystr :=
  [py "youtube.com/watch?"; short_marker; embed_marker].

(** The values a query gives to [name], in their order. *)
Fixpoint values_of (name : pystr) (pairs : list (pystr * pystr)) : list pystr :=
  match pairs with
  | [] => []
  | (n, v) :: rest =>
      if decide (n = name) then v :: values_of name rest else values_of name rest
  end.

(** The object the command-line [get_video_info] returns for an id. *)
Definition cli_video_info (video_id url : pystr) (timestamp : value) : value :=
  VDict [(py "video_id", VStr video_id);
         (py "url", VStr url);
         (py "timestamp", timestamp);
         (py "title", VStr (py "YouTube Video " ++ video_id));
         (py "description", VStr (py "Video processing available"))].

(** The UTF-8 bytes of a string, each read as one character. *)
Definition utf8_as_latin1 (s : pystr) : pystr := flat_map utf8_encode_char s.

Definition backslash : char := ch "\".

(** Neither a backslash nor a surrogate code point *)
Definition plain_char (c : char) : bool :=
  negb (N.eqb c backslash) && negb (is_surrogate c).

Definition is_ascii (c : char) : bool := (c <? 128)%N.

(** An ASCII character other than the backslash *)
Definition ascii_plain (c : char) : bool :=
  is_ascii c && negb (N.eqb c backslash).

(** The one-letter escapes: the letter after the backslash and the
    character it stands for *)
Definition simple_escapes : list (char * char) :=
  [(ch "n", newline); (ch "t", 9%N); (ch "r", 13%N); (ch "b", 8%N);
   (ch "f", 12%N); (ch "v", 11%N); (ch "a", 7%N); (ch "\", ch "\");
   (ch "'", ch "'"); (34%N, 34%N)].

(** The number that digits write in a base, the first digit the most
    significant *)
Definition number_of (base : N) (ds : list N) : N :=
  fold_left (fun acc d => (acc * base + d)%N) ds 0%N.

(** The hexadecimal escapes: the letter after the backslash and how many
    digits follow it *)
Definition hex_escapes : list (char * nat) :=
  [(ch "x", 2); (ch "u", 4); (ch "U", 8)].

(** The text [b] does not start with an octal digit. *)
Definition no_octal_ahead (b : pystr) : Prop :=
  forall c, head b = Some c -> octal_value c = None.

(** The transcript object of [get_transcript] *)
Definition transcript_object (video_id lang : pystr) (parts : list value)
  (full_text : pystr) : value :=
  VDict [(py "video_id", VStr video_id);
         (py "language", VStr lang);
         (py "transcript", VList parts);
         (py "full_text", VStr full_text)].

End Notions.
Import Notions.

(** * Properties *)

(** ** The matcher *)

Module ReFacts.

Lemma strip_prefix_app l s : strip_prefix l (l ++ s) = Some s.
Proof.
  induction l as [|a l IH]; simpl; [done|]. by rewrite N.eqb_refl.
Qed.

Lemma strip_prefix_Some l s s' : strip_prefix l s = Some s' -> s = l ++ s'.
Proof.
  revert s. induction l as [|a l IH]; intros s H; simpl in *.
  - congruence.
  - destruct s as [|b s]; [done|].
    destruct (N.eqb_spec a b) as [->|]; [|done].
    f_equal. by apply IH.
Qed.

Lemma span_length_le p s : length (span p s) <= length s.
Proof. induction s as [|c s IH]; simpl; [lia|]. destruct (p c); simpl; lia. Qed.

Lemma span_app p s : s = span p s ++ drop (length (span p s)) s.
Proof.
  induction s as [|c s IH]; simpl; [done|].
  destruct (p c); simpl; [by f_equal|done].
Qed.

Section Rep.
Context {A : Type}.
Implicit Types (k : pystr -> option A).

(** Whatever [rep] returns, it got from the continuation, after giving it
    a part of the longest run. *)
Lemma rep_inv p s k a :
  rep p s k = Some a ->
  exists n, n <= length (span p s) /\ k (drop n s) = Some a.
Proof.
  induction s as [|c s IH]; simpl; intros H.
  - exists 0. split; [lia|done].
  - destruct (p c) eqn:Hp.
    + destruct (rep p s k) as [a'|] eqn:Hr.
      * destruct (IH H) as (n & Hn & Hk).
        exists (S n). simpl. split; [lia|congruence].
      * exists 0. simpl. split; [lia|done].
    + exists 0. simpl. split; [lia|done].
Qed.

(** Greedy: if the continuation accepts what follows the longest run,
    that is the result. *)
Lemma rep_greedy p s k a :
  k (drop (length (span p s)) s) = Some a -> rep p s k = Some a.
Proof.
  induction s as [|c s IH]; simpl; [done|].
  destruct (p c); simpl; [|done].
  intros H. by rewrite (IH H).
Qed.

End Rep.

Lemma run_ends_in_group {A} r :
  ends_in_group r ->
  forall s g (k : pystr -> option pystr -> option A) a,
    run r s g k = Some a ->
    exists s' c id, k s' (Some (c :: id)) = Some a.
Proof.
  induction r as [l|r1 IH1 r2 IH2|r1 IH1 r2 IH2|p|p|r IH]; simpl; try done.
  - (* Cat: by induction on the pattern before, generalised below *)
    intros Hend s g k a H.
    assert (Hany : forall (r : regex) s g (k' : pystr -> option pystr -> option A) a,
               run r s g k' = Some a -> exists s' g', k' s' g' = Some a).
    { clear. induction r as [l|r1 IH1 r2 IH2|r1 IH1 r2 IH2|p|p|r IH];
        simpl; intros s g k' a H.
      - destruct (strip_prefix l s); [eauto|done].
      - apply IH1 in H as (s1 & g1 & H). by apply IH2 in H.
      - destruct (run r1 s g k') eqn:H1; [inversion H; subst; eauto|eauto].
      - apply rep_inv in H as (n & _ & H). eauto.
      - destruct s as [|c s]; [done|]. destruct (p c); [|done].
        apply rep_inv in H as (n & _ & H). eauto.
      - apply IH in H as (s1 & g1 & H). eauto. }
    apply Hany in H as (s1 & g1 & H). by apply (IH2 Hend) in H.
  - destruct r; try done. intros _ s g k a H. simpl in H.
    destruct s as [|c s]; [done|]. destruct (p c) eqn:Hp; [|done].
    apply rep_inv in H as (n & Hn & H).
    pose proof (span_length_le p s).
    replace (length (c :: s) - length (drop n s)) with (S n) in H
      by (rewrite length_drop; simpl; lia).
    simpl in H. eauto.
Qed.

Lemma search_from_group r i s m :
  ends_in_group r -> search_from r i s = Some m ->
  exists c id, group1 m = Some (c :: id).
Proof.
  intros Hend. revert i. induction s as [|x s IH]; intros i; simpl.
  - destruct (match_here r []) as [[rest g]|] eqn:Hm; [|done].
    intros [= <-]. simpl. unfold match_here in Hm.
    apply (run_ends_in_group r Hend) in Hm as (s' & c & id & [= _ <-]). eauto.
  - destruct (match_here r (x :: s)) as [[rest g]|] eqn:Hm; [|by apply IH].
    intros [= <-]. simpl. unfold match_here in Hm.
    apply (run_ends_in_group r Hend) in Hm as (s' & c & id & [= _ <-]). eauto.
Qed.

Lemma first_match_nonempty patterns url id :
  Forall ends_in_group patterns -> first_match patterns url = Some id -> id <> [].
Proof.
  induction 1 as [|r rs Hr _ IH]; simpl; [done|].
  destruct (search r url) as [m|] eqn:Hs; [|done].
  apply (search_from_group _ _ _ _ Hr) in Hs as (c & id' & ->).
  by intros [= <-].
Qed.

Lemma span_take p s : take (length (span p s)) s = span p s.
Proof.
  induction s as [|c s IH]; simpl; [done|].
  destruct (p c); simpl; [by f_equal|done].
Qed.

(** A captured [X+] in front of an accepting continuation takes the
    longest run, when there is one. *)
Lemma run_group_plus_greedy {A} p s g (k : pystr -> option pystr -> option A) a :
  span p s <> [] ->
  k (drop (length (span p s)) s) (Some (span p s)) = Some a ->
  run (Group (Plus p)) s g k = Some a.
Proof.
  intros Hne Hk. simpl.
  destruct s as [|c s]; [done|]. simpl in *.
  destruct (p c) eqn:Hp; [|done]. simpl in *.
  apply rep_greedy.
  pose proof (span_length_le p s).
  replace (S (length s) - length (drop (length (span p s)) s))
    with (S (length (span p s))) by (rewrite length_drop; lia).
  simpl. by rewrite span_take.
Qed.

Lemma run_cat {A} r1 r2 s g (k : pystr -> option pystr -> option A) :
  run (Cat r1 r2) s g k = run r1 s g (fun s' g' => run r2 s' g' k).
Proof. reflexivity. Qed.

Lemma run_or {A} r1 r2 s g (k : pystr -> option pystr -> option A) :
  run (Or r1 r2) s g k
  = match run r1 s g k with Some a => Some a | None => run r2 s g k end.
Proof. reflexivity. Qed.

Lemma run_lit {A} l s g (k : pystr -> option pystr -> option A) :
  run (Lit l) s g k
  = match strip_prefix l s with Some s' => k s' g | None => None end.
Proof. reflexivity. Qed.

Lemma run_group_plus {A} p s g (k : pystr -> option pystr -> option A) :
  run (Group (Plus p)) s g k
  = match s with
    | c :: s' =>
        if p c
        then rep p s' (fun s'' => k s'' (Some (take (length s - length s'') s)))
        else None
    | [] => None
    end.
Proof. by destruct s. Qed.

Lemma run_lit_app {A} l s g (k : pystr -> option pystr -> option A) :
  run (Lit l) (l ++ s) g k = k s g.
Proof. simpl. by rewrite strip_prefix_app. Qed.

Lemma run_lit_None {A} l s g (k : pystr -> option pystr -> option A) :
  starts_with l s = false -> run (Lit l) s g k = None.
Proof. unfold starts_with. simpl. by destruct (strip_prefix l s). Qed.

Lemma search_from_skip r i pre s :
  (forall j, j < length pre -> match_here r (drop j (pre ++ s)) = None) ->
  search_from r i (pre ++ s) = search_from r (i + length pre) s.
Proof.
  revert i. induction pre as [|c pre IH]; intros i H; simpl.
  - f_equal. lia.
  - pose proof (H 0 ltac:(simpl; lia)) as H0. simpl in H0. rewrite H0.
    rewrite IH; [f_equal; lia|].
    intros j Hj. apply (H (S j)). simpl; lia.
Qed.

Lemma search_from_None r i s :
  (forall j, j <= length s -> match_here r (drop j s) = None) ->
  search_from r i s = None.
Proof.
  revert i. induction s as [|c s IH]; intros i H; simpl.
  - pose proof (H 0 ltac:(simpl; lia)) as H0. simpl in H0. by rewrite H0.
  - pose proof (H 0 ltac:(simpl; lia)) as H0. simpl in H0. rewrite H0.
    apply IH. intros j Hj. apply (H (S j)). simpl; lia.
Qed.

Lemma occurs_within_false n w s j :
  occurs_within n w s = false -> j < n -> starts_with w (drop j s) = false.
Proof.
  revert s j. induction n as [|n IH]; intros s j H Hj; [lia|].
  simpl in H. apply orb_false_iff in H as [H0 H].
  destruct j as [|j]; [done|].
  destruct s as [|c s]; simpl.
  - by destruct w.
  - apply IH; [done|lia].
Qed.

Lemma free_of_false markers n s w j :
  free_of markers n s = true -> w ∈ markers -> j < n ->
  starts_with w (drop j s) = false.
Proof.
  unfold free_of. rewrite forallb_forall. intros H Hw Hj.
  apply list_elem_of_In in Hw. specialize (H _ Hw).
  apply negb_true_iff in H. by eapply occurs_within_false.
Qed.

(** *** Substitution of a literal *)

Lemma starts_with_nil_r w : w <> [] -> starts_with w [] = false.
Proof. by destruct w. Qed.

Lemma starts_with_cons b w c s :
  starts_with (b :: w) (c :: s) = N.eqb b c && starts_with w s.
Proof. unfold starts_with. simpl. by destruct (N.eqb b c). Qed.

Lemma starts_with_true w s :
  starts_with w s = true -> exists s', s = w ++ s'.
Proof.
  unfold starts_with. destruct (strip_prefix w s) as [s'|] eqn:H; [|done].
  intros _. exists s'. revert s H.
  induction w as [|a w IH]; intros s H; simpl in *; [congruence|].
  destruct s as [|b s]; [done|].
  destruct (N.eqb_spec a b) as [->|]; [|done]. f_equal. by apply IH.
Qed.

Lemma match_here_lit l s :
  match_here (Lit l) s
  = match strip_prefix l s with Some s' => Some (s', None) | None => None end.
Proof. reflexivity. Qed.

Lemma sub_from_skip r repl x s :
  r <> Lit [] ->
  sub_from r repl (length x) (x ++ s) = sub_from r repl 0 s.
Proof. intros _. induction x as [|c x IH]; simpl; [by destruct s|done]. Qed.

(** A pass [re.sub(entity, repl, _)] for a literal entity copies a
    character at which the entity does not start, and replaces the entity
    where it stands. *)
Lemma pass_copy entity repl c s :
  starts_with entity (c :: s) = false ->
  sub (Lit entity) repl (c :: s) = c :: sub (Lit entity) repl s.
Proof.
  unfold sub, starts_with. simpl sub_from. rewrite match_here_lit.
  by destruct (strip_prefix entity (c :: s)).
Qed.

Lemma pass_entity a rest repl s :
  sub (Lit (a :: rest)) repl ((a :: rest) ++ s)
  = repl ++ sub (Lit (a :: rest)) repl s.
Proof.
  unfold sub. change ((a :: rest) ++ s) with (a :: (rest ++ s)).
  simpl sub_from. rewrite match_here_lit.
  change (a :: rest ++ s) with ((a :: rest) ++ s). rewrite strip_prefix_app.
  replace (S (length (rest ++ s)) - length s) with (S (length rest))
    by (rewrite length_app; lia).
  by rewrite sub_from_skip.
Qed.

(** A word that holds neither the entity's first character nor the
    replacement's stands at the front of the output exactly when it
    stands at the front of the input. *)
Lemma pass_starts_with a rest r w s :
  char_in w a = false -> char_in w r = false ->
  starts_with w (sub (Lit (a :: rest)) [r] s) = starts_with w s.
Proof.
  intros Ha Hr. revert s.
  induction w as [|b w IH]; intros s; [done|].
  simpl in Ha, Hr.
  apply orb_false_iff in Ha as [Hab Ha]. apply orb_false_iff in Hr as [Hrb Hr].
  destruct s as [|c s]; [done|].
  destruct (starts_with (a :: rest) (c :: s)) eqn:Hent.
  - apply starts_with_true in Hent as [s' Hs].
    rewrite Hs, pass_entity. simpl.
    rewrite !starts_with_cons.
    by rewrite (N.eqb_sym b r), (N.eqb_sym b a), Hab, Hrb.
  - rewrite pass_copy by done. rewrite !starts_with_cons.
    by rewrite IH.
Qed.

Lemma unescape_from_skip x s :
  unescape_entities_from (length x) (x ++ s) = unescape_entities_from 0 s.
Proof. induction x as [|c x IH]; simpl; [by destruct s|done]. Qed.

Lemma occurs_nowhere w t : w <> [] -> occurs w t = false -> nowhere w t.
Proof.
  intros Hw H j. unfold occurs in H.
  destruct (decide (j < S (length t))) as [Hj|Hj].
  - by eapply occurs_within_false.
  - rewrite drop_ge by lia. by apply starts_with_nil_r.
Qed.

Lemma nowhere_app w x s : nowhere w (x ++ s) -> nowhere w s.
Proof.
  intros H j. specialize (H (length x + j)).
  by rewrite <- drop_drop, drop_app_length in H.
Qed.

Lemma nowhere_head w t : nowhere w t -> starts_with w t = false.
Proof. intros H. apply (H 0). Qed.

Lemma clean_up_passes t : Processor.clean_up t = gt_pass (lt_pass (amp_pass t)).
Proof. reflexivity. Qed.

Lemma amp_pass_entity s : amp_pass (py "&amp;" ++ s) = ch "&" :: amp_pass s.
Proof. exact (pass_entity (ch "&") (py "amp;") (py "&") s). Qed.
Lemma lt_pass_entity s : lt_pass (py "&lt;" ++ s) = ch "<" :: lt_pass s.
Proof. exact (pass_entity (ch "&") (py "lt;") (py "<") s). Qed.
Lemma gt_pass_entity s : gt_pass (py "&gt;" ++ s) = ch ">" :: gt_pass s.
Proof. exact (pass_entity (ch "&") (py "gt;") (py ">") s). Qed.

Lemma amp_pass_copy c s :
  starts_with (py "&amp;") (c :: s) = false -> amp_pass (c :: s) = c :: amp_pass s.
Proof. apply pass_copy. Qed.
Lemma lt_pass_copy c s :
  starts_with (py "&lt;") (c :: s) = false -> lt_pass (c :: s) = c :: lt_pass s.
Proof. apply pass_copy. Qed.
Lemma gt_pass_copy c s :
  starts_with (py "&gt;") (c :: s) = false -> gt_pass (c :: s) = c :: gt_pass s.
Proof. apply pass_copy. Qed.

Lemma amp_pass_starts_with w s :
  char_in w (ch "&") = false -> starts_with w (amp_pass s) = starts_with w s.
Proof. intros Hw. by apply (pass_starts_with (ch "&") (py "amp;") (ch "&")). Qed.
Lemma lt_pass_starts_with w s :
  char_in w (ch "&") = false -> char_in w (ch "<") = false ->
  starts_with w (lt_pass s) = starts_with w s.
Proof. intros Hw Hw'. by apply (pass_starts_with (ch "&") (py "lt;") (ch "<")). Qed.

Lemma starts_with_app w v s :
  starts_with (w ++ v) (w ++ s) = starts_with v s.
Proof.
  induction w as [|a w IH]; [done|]. simpl.
  by rewrite starts_with_cons, N.eqb_refl, IH.
Qed.

Lemma unescape_entities_copy c s :
  starts_with (py "&amp;") (c :: s) = false ->
  starts_with (py "&lt;") (c :: s) = false ->
  starts_with (py "&gt;") (c :: s) = false ->
  unescape_entities (c :: s) = c :: unescape_entities s.
Proof.
  intros H1 H2 H3. unfold unescape_entities. simpl unescape_entities_from.
  by rewrite H1, H2, H3.
Qed.

Lemma unescape_entities_amp s :
  unescape_entities (py "&amp;" ++ s) = ch "&" :: unescape_entities s.
Proof. exact (f_equal (cons _) (unescape_from_skip (py "amp;") s)). Qed.
Lemma unescape_entities_lt s :
  unescape_entities (py "&lt;" ++ s) = ch "<" :: unescape_entities s.
Proof. exact (f_equal (cons _) (unescape_from_skip (py "lt;") s)). Qed.
Lemma unescape_entities_gt s :
  unescape_entities (py "&gt;" ++ s) = ch ">" :: unescape_entities s.
Proof. exact (f_equal (cons _) (unescape_from_skip (py "gt;") s)). Qed.

Lemma clean_up_unescape_entities t :
  nowhere (py "&amp;lt;") t -> nowhere (py "&amp;gt;") t ->
  Processor.clean_up t = unescape_entities t.
Proof.
  remember (length t) as n eqn:Hn. revert t Hn.
  induction n as [n IH] using lt_wf_ind. intros t Hn Hlt Hgt.
  rewrite clean_up_passes.
  destruct t as [|c t']; [done|].
  assert (Hrec : forall x s, x <> [] -> c :: t' = x ++ s ->
                   gt_pass (lt_pass (amp_pass s)) = unescape_entities s).
  { intros x s Hx Heq. rewrite <- clean_up_passes. apply (IH (length s)).
    - rewrite Hn, Heq, length_app. destruct x; [done|simpl; lia].
    - done.
    - rewrite Heq in Hlt. by eapply nowhere_app.
    - rewrite Heq in Hgt. by eapply nowhere_app. }
  apply nowhere_head in Hlt, Hgt.
  destruct (starts_with (py "&amp;") (c :: t')) eqn:Hamp.
  { apply starts_with_true in Hamp as [s Hs]. rewrite Hs in *.
    change (py "&amp;lt;") with (py "&amp;" ++ py "lt;") in Hlt.
    change (py "&amp;gt;") with (py "&amp;" ++ py "gt;") in Hgt.
    rewrite starts_with_app in Hlt, Hgt.
    rewrite amp_pass_entity, lt_pass_copy, gt_pass_copy, unescape_entities_amp.
    - f_equal. by apply (Hrec (py "&amp;")).
    - change (py "&gt;") with (ch "&" :: py "gt;"). rewrite starts_with_cons.
      rewrite lt_pass_starts_with, amp_pass_starts_with by reflexivity.
      by rewrite Hgt.
    - change (py "&lt;") with (ch "&" :: py "lt;"). rewrite starts_with_cons.
      rewrite amp_pass_starts_with by reflexivity. by rewrite Hlt. }
  destruct (starts_with (py "&lt;") (c :: t')) eqn:Hl.
  { apply starts_with_true in Hl as [s Hs]. rewrite Hs in *.
    change (py "&lt;" ++ s) with (ch "&" :: ch "l" :: ch "t" :: ch ";" :: s).
    rewrite !amp_pass_copy by reflexivity.
    change (ch "&" :: ch "l" :: ch "t" :: ch ";" :: amp_pass s)
      with (py "&lt;" ++ amp_pass s).
    rewrite lt_pass_entity, gt_pass_copy by reflexivity.
    change (ch "&" :: ch "l" :: ch "t" :: ch ";" :: s) with (py "&lt;" ++ s).
    rewrite unescape_entities_lt. f_equal. by apply (Hrec (py "&lt;")). }
  destruct (starts_with (py "&gt;") (c :: t')) eqn:Hg.
  { apply starts_with_true in Hg as [s Hs]. rewrite Hs in *.
    change (py "&gt;" ++ s) with (ch "&" :: ch "g" :: ch "t" :: ch ";" :: s).
    rewrite !amp_pass_copy by reflexivity.
    rewrite !lt_pass_copy by reflexivity.
    change (ch "&" :: ch "g" :: ch "t" :: ch ";" :: lt_pass (amp_pass s))
      with (py "&gt;" ++ lt_pass (amp_pass s)).
    rewrite gt_pass_entity.
    change (ch "&" :: ch "g" :: ch "t" :: ch ";" :: s) with (py "&gt;" ++ s).
    rewrite unescape_entities_gt. f_equal. by apply (Hrec (py "&gt;")). }
  assert (Hl' : starts_with (py "&lt;") (c :: amp_pass t') = false).
  { change (py "&lt;") with (ch "&" :: py "lt;") in Hl |- *.
    rewrite starts_with_cons in Hl |- *.
    by rewrite amp_pass_starts_with by reflexivity. }
  assert (Hg' : starts_with (py "&gt;") (c :: lt_pass (amp_pass t')) = false).
  { change (py "&gt;") with (ch "&" :: py "gt;") in Hg |- *.
    rewrite starts_with_cons in Hg |- *.
    by rewrite lt_pass_starts_with, amp_pass_starts_with by reflexivity. }
  rewrite amp_pass_copy, lt_pass_copy, gt_pass_copy, unescape_entities_copy by done.
  f_equal. by apply (Hrec [c]).
Qed.
End ReFacts.

(** ** [extract_video_id] *)

Module ExtractTheorems.
Import ReFacts.

Lemma match_here_main_None s :
  (forall w, w ∈ main_markers -> starts_with w s = false) ->
  match_here main_pattern s = None.
Proof.
  intros H. unfold match_here, main_pattern.
  rewrite run_cat, !run_or.
  rewrite !run_lit_None; [done|..]; apply H; unfold main_markers; set_solver.
Qed.

Lemma match_here_main marker tail :
  marker ∈ main_markers -> id_span tail <> [] ->
  match_here main_pattern (marker ++ tail)
  = Some (drop (length (id_span tail)) tail, Some (id_span tail)).
Proof.
  intros Hm Hne. unfold match_here, main_pattern.
  rewrite run_cat, !run_or.
  assert (Hg : run (Group (Plus id_char)) tail None (fun s' g => Some (s', g))
               = Some (drop (length (id_span tail)) tail, Some (id_span tail))).
  { by apply run_group_plus_greedy. }
  unfold main_markers in Hm.
  apply elem_of_cons in Hm as [->|Hm]; [|apply elem_of_cons in Hm as [->|Hm];
    [|apply list_elem_of_singleton in Hm as ->]].
  - by rewrite run_lit_app, Hg.
  - rewrite (run_lit_None watch_marker) by reflexivity.
    by rewrite run_lit_app, Hg.
  - rewrite (run_lit_None watch_marker) by reflexivity.
    rewrite (run_lit_None short_marker) by reflexivity.
    by rewrite run_lit_app, Hg.
Qed.

Lemma match_here_v tail :
  id_span tail <> [] ->
  match_here v_pattern (v_marker ++ tail)
  = Some (drop (length (id_span tail)) tail, Some (id_span tail)).
Proof.
  intros Hne. unfold match_here, v_pattern.
  rewrite run_cat, run_lit_app. by apply run_group_plus_greedy.
Qed.

Lemma match_here_v_None s :
  starts_with v_marker s = false -> match_here v_pattern s = None.
Proof.
  intros H. unfold match_here, v_pattern.
  rewrite run_cat. by apply run_lit_None.
Qed.

Lemma search_main pre marker tail :
  marker ∈ main_markers -> id_span tail <> [] ->
  free_of main_markers (length pre) (pre ++ marker ++ tail) = true ->
  search main_pattern (pre ++ marker ++ tail)
  = Some (MatchObj (length pre) (drop (length (id_span tail)) tail)
            (Some (id_span tail))).
Proof.
  intros Hm Hne Hfree. unfold search.
  rewrite search_from_skip.
  - destruct (marker ++ tail) as [|c s] eqn:Hs.
    + destruct marker; [|done]. set_solver.
    + simpl. rewrite <- Hs, match_here_main by done. done.
  - intros j Hj. apply match_here_main_None.
    intros w Hw. by eapply free_of_false.
Qed.

Lemma search_v pre tail :
  id_span tail <> [] ->
  free_of [v_marker] (length pre) (pre ++ v_marker ++ tail) = true ->
  search v_pattern (pre ++ v_marker ++ tail)
  = Some (MatchObj (length pre) (drop (length (id_span tail)) tail)
            (Some (id_span tail))).
Proof.
  intros Hne Hfree. unfold search.
  rewrite search_from_skip.
  - destruct (v_marker ++ tail) as [|c s] eqn:Hs; [done|].
    simpl. rewrite <- Hs, match_here_v by done. done.
  - intros j Hj. apply match_here_v_None.
    eapply free_of_false; [done| |done]. set_solver.
Qed.

Lemma search_main_None url :
  free_of main_markers (S (length url)) url = true ->
  search main_pattern url = None.
Proof.
  intros Hfree. apply search_from_None.
  intros j Hj. apply match_here_main_None.
  intros w Hw. eapply free_of_false; [done..|lia].
Qed.

(** C10: an extracted video id is never the empty string, in both
    scripts. *)
Theorem extract_video_id_nonempty_C10 (url : pystr) :
  (Cli.extract_video_id url = None
   \/ exists id, Cli.extract_video_id url = Some id /\ id <> [])
  /\ (Processor.extract_video_id url = None
      \/ exists id, Processor.extract_video_id url = Some id /\ id <> []).
Proof.
  split.
  - destruct (Cli.extract_video_id url) as [id|] eqn:H; [right|by left].
    exists id. split; [done|].
    eapply first_match_nonempty; [|exact H].
    repeat constructor.
  - destruct (Processor.extract_video_id url) as [id|] eqn:H; [right|by left].
    exists id. split; [done|].
    eapply first_match_nonempty; [|exact H].
    repeat constructor.
Qed.

(** C9: a watch URL whose [v=] is not the first query parameter has none
    of the four listed markers, the first pattern finds nothing in it, and
    the command-line script still returns the id through its second
    pattern; the class, which lacks that pattern, returns none. *)
Theorem extract_video_id_later_parameter_C9 :
  exists url,
    url = py "https://www.youtube.com/watch?list=X&v=ID"
    /\ forallb (fun w => negb (occurs w url)) supported_markers = true
    /\ search main_pattern url = None
    /\ (exists m, search watch_any_pattern url = Some m
                  /\ group1 m = Some (py "ID"))
    /\ Cli.extract_video_id url = Some (py "ID")
    /\ Processor.extract_video_id url = None.
Proof.
  eexists. split; [reflexivity|].
  split; [by vm_compute|]. split; [by vm_compute|].
  split; [|split; by vm_compute].
  eexists. split; by vm_compute.
Qed.

(** C1, as the scripts have it: when one of the three markers of the first
    pattern stands in the URL with no such marker starting before it, and
    at least one character other than ampersand, question mark, hash and
    newline follows it, both scripts return the characters up to the first
    of those four (or to the end); the class does the same for the
    [youtube.com/v/] marker when the URL holds none of the three. *)
Theorem extract_video_id_span_C1 (pre marker tail : pystr) :
  id_span tail <> [] ->
  (marker ∈ main_markers ->
   free_of main_markers (length pre) (pre ++ marker ++ tail) = true ->
   Cli.extract_video_id (pre ++ marker ++ tail) = Some (id_span tail)
   /\ Processor.extract_video_id (pre ++ marker ++ tail) = Some (id_span tail))
  /\ (marker = v_marker ->
      free_of main_markers (S (length (pre ++ marker ++ tail)))
        (pre ++ marker ++ tail) = true ->
      free_of [v_marker] (length pre) (pre ++ marker ++ tail) = true ->
      Processor.extract_video_id (pre ++ marker ++ tail) = Some (id_span tail)).
Proof.
  intros Hne. split.
  - intros Hm Hfree.
    unfold Cli.extract_video_id, Processor.extract_video_id, first_match.
    by rewrite search_main.
  - intros -> Hmain Hv.
    unfold Processor.extract_video_id, first_match.
    by rewrite search_main_None, search_v.
Qed.

Lemma extract_video_id_span_C1_witness :
  Cli.extract_video_id (py "https://www.youtube.com/watch?v=dQw4w9WgXcQ&t=42")
  = Some (py "dQw4w9WgXcQ")
  /\ Processor.extract_video_id (py "https://www.youtube.com/v/dQw4w9WgXcQ#top")
     = Some (py "dQw4w9WgXcQ").
Proof.
  split.
  - refine (proj1 (proj1 (extract_video_id_span_C1 (py "https://www.")
             watch_marker (py "dQw4w9WgXcQ&t=42") _) _ _)).
    + by vm_compute.
    + unfold main_markers. set_solver.
    + by vm_compute.
  - refine (proj2 (extract_video_id_span_C1 (py "https://www.")
             v_marker (py "dQw4w9WgXcQ#top") _) _ _ _).
    + by vm_compute.
    + reflexivity.
    + by vm_compute.
    + by vm_compute.
Defined.

(** C1 fails as stated: the command-line script has no pattern for the
    [youtube.com/v/] marker; an empty run after the marker gives none, not
    the empty string; and of two markers the leftmost decides. *)
Lemma extract_video_id_C1_counterexample :
  Cli.extract_video_id (py "https://www.youtube.com/v/dQw4w9WgXcQ") = None
  /\ Processor.extract_video_id (py "https://www.youtube.com/v/dQw4w9WgXcQ")
     = Some (py "dQw4w9WgXcQ")
  /\ id_span (py "?t=42") = []
  /\ Cli.extract_video_id (py "https://youtu.be/?t=42") = None
  /\ Processor.extract_video_id (py "https://youtu.be/?t=42") = None
  /\ Processor.extract_video_id
       (py "https://www.youtube.com/v/abc?next=https://youtu.be/xyz")
     = Some (py "xyz").
Proof. repeat split; by vm_compute. Qed.
End ExtractTheorems.

(** ** The command-line script *)

Module CliTheorems.
Import ReFacts.

Lemma parse_qs_nonempty lib qs name :
  parse_qs lib qs !! name <> Some [].
Proof.
  unfold parse_qs.
  assert (H : forall (l : list (pystr * pystr)) (acc : gmap pystr (list pystr)),
             acc !! name <> Some [] ->
             foldl (fun parsed_result '(name, v) =>
                      match parsed_result !! name with
                      | Some vs => <[name := vs ++ [v]]> parsed_result
                      | None => <[name := [v]]> parsed_result
                      end) acc l !! name <> Some []).
  { induction l as [|[n v] l IH]; intros acc Hacc; simpl; [done|].
    apply IH. destruct (acc !! n) as [vs|] eqn:Hn.
    - destruct (decide (n = name)) as [->|Hne].
      + rewrite lookup_insert_eq. intros [= Hnil]. by destruct vs.
      + by rewrite lookup_insert_ne.
    - destruct (decide (n = name)) as [->|Hne].
      + by rewrite lookup_insert_eq.
      + by rewrite lookup_insert_ne. }
  apply H. by rewrite lookup_empty.
Qed.

Lemma get_video_info_returns lib url q :
  urlparse_query lib url = inr q ->
  exists d, Cli.get_video_info lib url = ([], inr (VDict d)).
Proof.
  intros Hq. unfold Cli.get_video_info.
  destruct (truthy (Cli.extract_video_id url)) as [video_id|]; [|by eexists].
  rewrite Hq. unfold lift, bind, ret, raise.
  pose proof (parse_qs_nonempty lib q (py "t")) as Hne.
  destruct (parse_qs lib q !! py "t") as [[|t ts]|]; [done|by eexists..].
Qed.

(** What the script prints when nothing raises: without a URL the
    missing-URL object, with an action other than [info] and [transcript]
    the unknown-action object, and whenever [urlparse] accepts the URL
    exactly one JSON object, with status 0. *)
Lemma main_prints_one_object (lib : UrlLib) (argv : list pystr) :
  (length argv < 2 ->
   Cli.main lib argv
   = ([Print (Json None (VDict [(py "error", VStr (py "Please provide YouTube URL"))]))],
      inr tt))
  /\ (forall action, argv !! 2 = Some action ->
      action <> py "info" -> action <> py "transcript" ->
      Cli.main lib argv
      = ([Print (Json (Some 2) (VDict [(py "error", VStr (py "Unknown action"))]))],
         inr tt))
  /\ ((forall url, argv !! 1 = Some url -> exists q, urlparse_query lib url = inr q) ->
      (exists indent d, Cli.main lib argv = ([Print (Json indent (VDict d))], inr tt))
      /\ exit_status (Cli.main lib argv) = 0%Z).
Proof.
  split; [|split].
  - intros Hlen. destruct argv as [|script [|url more]]; simpl in *; [done..|lia].
  - intros action Hact Hinfo Htr.
    destruct argv as [|script [|url [|a more]]]; simpl in *; try done.
    inversion Hact; subst. unfold Cli.main.
    by rewrite !decide_False by done.
  - intros Hurl.
    assert (Hmain : exists indent d,
               Cli.main lib argv = ([Print (Json indent (VDict d))], inr tt)).
    { destruct argv as [|script [|url more]]; [by do 2 eexists..|].
      destruct (Hurl url eq_refl) as [q Hq].
      destruct (get_video_info_returns lib url q Hq) as [d Hd].
      unfold Cli.main.
      destruct (decide _); [rewrite Hd; by do 2 eexists|].
      destruct (decide _); [|by do 2 eexists].
      destruct (truthy _); by do 2 eexists. }
    split; [done|]. destruct Hmain as (indent & d & ->). done.
Qed.

Lemma main_prints_one_object_witness :
  (exists indent d,
      Cli.main plain_lib [py "youtube_processor.py";
                          py "https://www.youtube.com/watch?v=dQw4w9WgXcQ&t=42"]
      = ([Print (Json indent (VDict d))], inr tt))
  /\ Cli.main plain_lib [py "youtube_processor.py"]
     = ([Print (Json None (VDict [(py "error", VStr (py "Please provide YouTube URL"))]))],
        inr tt)
  /\ Cli.main plain_lib [py "youtube_processor.py"; py "x"; py "list"]
     = ([Print (Json (Some 2) (VDict [(py "error", VStr (py "Unknown action"))]))],
        inr tt).
Proof.
  split; [|split].
  - refine (proj1 (proj2 (proj2 (main_prints_one_object plain_lib _)) _)).
    intros url [= <-]. eexists. by vm_compute.
  - refine (proj1 (main_prints_one_object plain_lib _) _). simpl. lia.
  - refine (proj1 (proj2 (main_prints_one_object plain_lib _)) _ _ _ _).
    + reflexivity.
    + by vm_compute.
    + by vm_compute.
Defined.

(** C7: the script does not end with one JSON object and status 0 on
    every input.  In the URL below [extract_video_id] finds the id [abc]
    behind an opening square bracket that is never closed.  With the
    action [info], given or by default, [urlparse] raises [ValueError]
    before any check of the library, nothing catches it, nothing is
    printed and the status is 1.  With the action [transcript] the same
    URL gets the placeholder object, and a URL with the same bracket and
    no id gets the invalid-URL object, both with status 0. *)
Theorem main_info_unbalanced_bracket_C7 (lib : UrlLib) :
  Cli.extract_video_id (py "http://[youtu.be/abc") = Some (py "abc")
  /\ Cli.main lib [py "youtube_processor.py"; py "http://[youtu.be/abc"]
     = ([], inl (Exn "ValueError" (py "Invalid IPv6 URL")))
  /\ Cli.main lib [py "youtube_processor.py"; py "http://[youtu.be/abc"; py "info"]
     = ([], inl (Exn "ValueError" (py "Invalid IPv6 URL")))
  /\ exit_status
       (Cli.main lib [py "youtube_processor.py"; py "http://[youtu.be/abc"])
     = 1%Z
  /\ Cli.main lib [py "youtube_processor.py"; py "http://[youtu.be/abc";
                   py "transcript"]
     = ([Print (Json (Some 2) (Cli.get_transcript_placeholder (py "abc")))],
        inr tt)
  /\ Cli.main lib [py "youtube_processor.py"; py "http://[example.com/abc"]
     = ([Print (Json (Some 2)
                 (VDict [(py "error", VStr (py "Invalid YouTube URL"))]))],
        inr tt)
  /\ exit_status
       (Cli.main lib [py "youtube_processor.py"; py "http://[example.com/abc"])
     = 0%Z.
Proof. repeat split; reflexivity. Qed.

(** C8: with the action [transcript] and a URL that holds an id, the
    script performs no HTTP request, and prints the placeholder object, in
    which only [video_id] depends on the input. *)
Theorem main_transcript_placeholder_C8 (lib : UrlLib)
  (script url video_id : pystr) (more : list pystr) :
  truthy (Cli.extract_video_id url) = Some video_id ->
  Cli.main lib (script :: url :: py "transcript" :: more)
  = ([Print (Json (Some 2) (Cli.get_transcript_placeholder video_id))], inr tt)
  /\ (forall u, HttpGet u ∉ trace (Cli.main lib (script :: url :: py "transcript" :: more)))
  /\ Cli.extract_video_id url = Some video_id
  /\ exists rest,
      (forall id, Cli.get_transcript_placeholder id
                  = VDict ((py "video_id", VStr id) :: rest))
      /\ rest = [(py "transcript",
                  VStr (py "Transcript extraction requires youtube-transcript-api library"));
                 (py "language", VStr (py "auto"));
                 (py "note", VStr (py "Use fetch MCP to get video page content for now"))].
Proof.
  intros Hid.
  assert (Hmain : Cli.main lib (script :: url :: py "transcript" :: more)
            = ([Print (Json (Some 2) (Cli.get_transcript_placeholder video_id))], inr tt)).
  { unfold Cli.main. rewrite decide_False by (by vm_compute).
    rewrite decide_True by done. by rewrite Hid. }
  split; [done|]. split; [|split].
  - intros u. rewrite Hmain. by intros [=]%list_elem_of_singleton.
  - unfold truthy in Hid.
    destruct (Cli.extract_video_id url) as [[|c s]|]; congruence.
  - eexists. split; [|reflexivity]. done.
Qed.

Lemma main_transcript_placeholder_C8_witness :
  Cli.main plain_lib [py "youtube_processor.py"; py "https://youtu.be/dQw4w9WgXcQ";
                      py "transcript"]
  = ([Print (Json (Some 2) (Cli.get_transcript_placeholder (py "dQw4w9WgXcQ")))],
     inr tt).
Proof.
  refine (proj1 (main_transcript_placeholder_C8 plain_lib _ _ _ [] _)).
  by vm_compute.
Defined.
End CliTheorems.

(** ** The processor class *)

Module ProcessorTheorems.
Import Processor.
Import ReFacts.

Lemma lstrip_app p s :
  exists l, s = l ++ lstrip p s /\ forallb p l = true
            /\ forall c, head (lstrip p s) = Some c -> p c = false.
Proof.
  induction s as [|c s (l & Hs & Hl & Hh)]; simpl.
  - exists []. by repeat split.
  - destruct (p c) eqn:Hp.
    + exists (c :: l). simpl. rewrite Hp, Hl. repeat split; [by f_equal|done].
    + exists []. repeat split. simpl. by intros ? [= <-].
Qed.

Lemma strip_app s :
  exists l r, s = l ++ strip s ++ r
              /\ forallb is_space l = true /\ forallb is_space r = true.
Proof.
  unfold strip.
  destruct (lstrip_app is_space s) as (l & Hs & Hl & _).
  destruct (lstrip_app is_space (rev (lstrip is_space s))) as (r & Hr & Hr' & _).
  exists l, (rev r). split; [|split; [done|]].
  - rewrite <- rev_app_distr, <- Hr, rev_involutive. done.
  - rewrite forallb_forall in *. intros x Hx. apply Hr'. by apply in_rev.
Qed.

Lemma strip_trimmed s : trimmed (strip s).
Proof.
  unfold strip.
  destruct (lstrip_app is_space s) as (l & Hs & Hl & Hhead).
  set (y := lstrip is_space s) in *.
  destruct (lstrip_app is_space (rev y)) as (r & Hr & Hr' & Hlast).
  set (z := lstrip is_space (rev y)) in *.
  assert (Hy : y = rev z ++ rev r).
  { by rewrite <- rev_app_distr, <- Hr, rev_involutive. }
  split.
  - intros c Hc. apply Hhead. rewrite Hy.
    destruct (rev z); [done|]. simpl in *. done.
  - intros c Hc. apply Hlast.
    rewrite rev_alt in Hc. fold (reverse z) in Hc.
    by rewrite last_reverse in Hc.
Qed.

Lemma mapM_pure {A B} (f : A -> M B) (Q : A -> B -> Prop) (l : list A) :
  Forall (fun x => exists y, f x = ([], inr y) /\ Q x y) l ->
  exists ys, mapM f l = ([], inr ys) /\ Forall2 Q l ys.
Proof.
  induction 1 as [|x l (y & Hy & HQ) _ (ys & Hys & Hall)]; simpl.
  - exists []. by split.
  - exists (y :: ys). rewrite Hy. unfold bind at 1. simpl.
    rewrite Hys. simpl. split; [done|]. by constructor.
Qed.

(** C5: [get_transcript_urls] always returns a list, and the empty list
    when the request raises, the status is not 200, or the XML parser
    raises. *)
Theorem get_transcript_urls_total_C5 (self : Runtime) (video_id : pystr) :
  (exists captions, outcome (get_transcript_urls self video_id) = inr captions)
  /\ (forall e, session_get self (captions_url video_id) = inl e ->
      outcome (get_transcript_urls self video_id) = inr [])
  /\ (forall response, session_get self (captions_url video_id) = inr response ->
      status_code response <> 200%Z ->
      outcome (get_transcript_urls self video_id) = inr [])
  /\ (forall response e, session_get self (captions_url video_id) = inr response ->
      fromstring self (text response) = inl e ->
      outcome (get_transcript_urls self video_id) = inr []).
Proof.
  unfold get_transcript_urls, get, captions_url, outcome.
  destruct (session_get self _) as [e|response] eqn:Hget; simpl.
  { repeat split; try done. by eexists. }
  destruct (decide (status_code response = 200%Z)) as [H200|H200]; simpl.
  - destruct (fromstring self (text response)) as [e|root] eqn:Hxml; simpl.
    + repeat split; try done. by eexists.
    + repeat split; try done; [by eexists|..].
      * intros r [= <-] Hr. done.
      * intros r e [= <-]. congruence.
  - repeat split; try done. by eexists.
Qed.

Lemma get_transcript_urls_total_C5_witness :
  outcome (get_transcript_urls
             (fixed_runtime (inr {| status_code := 404; text := [] |})
                (inl (Exn "ParseError" (py "no element found"))))
             (py "dQw4w9WgXcQ")) = inr [].
Proof.
  refine (proj1 (proj2 (proj2 (get_transcript_urls_total_C5 _ _))) _ _ _).
  - reflexivity.
  - simpl. lia.
Defined.

(** C6: a transcript request answered with a status other than 200 gives
    the no-transcript error object, as a returned value, and that object
    differs from every failed-to-get-transcript object. *)
Theorem get_transcript_not_200_C6 (self : Runtime) (url lang video_id : pystr)
  (response : Response) :
  truthy (extract_video_id url) = Some video_id ->
  session_get self (transcript_url lang video_id) = inr response ->
  status_code response <> 200%Z ->
  outcome (get_transcript self url lang)
  = inr (error (py "No transcript available for this video"))
  /\ forall e : exn,
      error (py "No transcript available for this video")
      <> error (py "Failed to get transcript: " ++ str_exn e).
Proof.
  intros Hid Hget Hstatus. split.
  - unfold get_transcript, get, outcome. rewrite Hid.
    cbn -[py transcript_url]. rewrite Hget. cbn -[py].
    by rewrite decide_False by done.
  - intros e. unfold error. by intros [= H].
Qed.

Lemma get_transcript_not_200_C6_witness :
  outcome (get_transcript
             (fixed_runtime (inr {| status_code := 404; text := [] |})
                (inl (Exn "ParseError" (py "no element found"))))
             (py "https://youtu.be/dQw4w9WgXcQ") (py "en"))
  = inr (error (py "No transcript available for this video")).
Proof.
  refine (proj1 (get_transcript_not_200_C6 _ _ _ (py "dQw4w9WgXcQ") _ _ _ _)).
  - by vm_compute.
  - reflexivity.
  - simpl. lia.
Defined.

(** *** Patterns of the shape key, captured run, closing quote *)

Lemma span_stop p v c rest :
  forallb p v = true -> p c = false -> span p (v ++ c :: rest) = v.
Proof.
  intros Hv Hc. induction v as [|x v IH]; simpl in *.
  - by rewrite Hc.
  - apply andb_true_iff in Hv as [-> Hv]. by rewrite IH.
Qed.

Lemma forallb_take_span p s n :
  n <= length (span p s) -> forallb p (take n s) = true.
Proof.
  revert n. induction s as [|c s IH]; intros n Hn; [by destruct n|].
  destruct n as [|n]; [done|]. simpl in *.
  destruct (p c); simpl in *; [apply IH; lia|lia].
Qed.

Lemma match_here_keyed name p v post :
  v <> [] -> forallb p v = true -> p 34%N = false ->
  match_here (keyed name p) (key name ++ v ++ quote ++ post) = Some (post, Some v).
Proof.
  intros Hne Hv Hq. unfold match_here, keyed.
  rewrite run_cat, run_lit_app, run_cat.
  assert (Hspan : span p (v ++ quote ++ post) = v) by (by apply span_stop).
  apply run_group_plus_greedy; rewrite Hspan; [done|].
  by rewrite drop_app_length, run_lit_app.
Qed.

Lemma match_here_keyed_None name p s :
  starts_with (key name) s = false -> match_here (keyed name p) s = None.
Proof.
  intros H. unfold match_here, keyed. rewrite run_cat. by apply run_lit_None.
Qed.

Lemma match_here_keyed_inv name p s rest g :
  match_here (keyed name p) s = Some (rest, g) ->
  exists v, g = Some v /\ v <> [] /\ forallb p v = true.
Proof.
  unfold match_here, keyed. rewrite run_cat, run_lit.
  destruct (strip_prefix (key name) s) as [s1|]; [|done].
  rewrite run_cat, run_group_plus.
  destruct s1 as [|c s1]; [done|]. destruct (p c) eqn:Hc; [|done].
  intros H. apply rep_inv in H as (n & Hn & H).
  rewrite run_lit in H. destruct (strip_prefix quote (drop n s1)); [|done].
  injection H as _ <-.
  pose proof (span_length_le p s1).
  replace (S (length s1) - length (drop n s1)) with (S n)
    by (rewrite length_drop; lia).
  eexists. split; [done|]. split; [done|].
  simpl. rewrite Hc. by apply forallb_take_span.
Qed.

Lemma search_from_inv r i s m :
  search_from r i s = Some m ->
  exists s', match_here r s' = Some (m_rest m, group1 m).
Proof.
  revert i. induction s as [|c s IH]; intros i; simpl.
  - destruct (match_here r []) as [[rest g]|] eqn:Hm; [|done].
    intros [= <-]. eauto.
  - destruct (match_here r (c :: s)) as [[rest g]|] eqn:Hm; [|by apply IH].
    intros [= <-]. eauto.
Qed.

Lemma search_keyed_inv name p s m :
  search (keyed name p) s = Some m ->
  exists v, group1 m = Some v /\ v <> [] /\ forallb p v = true.
Proof.
  intros H. apply search_from_inv in H as [s' H].
  by apply match_here_keyed_inv in H.
Qed.

Lemma search_keyed name p pre v post :
  v <> [] -> forallb p v = true -> p 34%N = false ->
  occurs_within (length pre) (key name) (pre ++ key name ++ v ++ quote ++ post)
  = false ->
  search (keyed name p) (pre ++ key name ++ v ++ quote ++ post)
  = Some (MatchObj (length pre) post (Some v)).
Proof.
  intros Hne Hv Hq Hfree. unfold search. rewrite search_from_skip.
  - destruct (key name ++ v ++ quote ++ post) as [|c s] eqn:Hs; [done|].
    simpl. rewrite <- Hs, match_here_keyed by done. done.
  - intros j Hj. apply match_here_keyed_None. by eapply occurs_within_false.
Qed.

(** *** [int] on a captured run of digits *)

Lemma digits_value_Some table s acc :
  forallb (fun c => bool_decide (is_Some (to_decimal table c))) s = true ->
  exists n, digits_value table acc s = Some n.
Proof.
  revert acc. induction s as [|c s IH]; intros acc H; simpl in *; [eauto|].
  apply andb_true_iff in H as [Hc H]. apply bool_decide_eq_true in Hc as [d Hd].
  rewrite Hd. by apply IH.
Qed.

(** The digits [\d+] captured are a literal [int] reads, unless they are
    more than the interpreter's limit. *)
Lemma int_of_captured self (v : pystr) :
  v <> [] -> forallb (digit self) v = true ->
  (length v <= 640 \/ max_str_digits self = 0 \/ length v <= max_str_digits self) ->
  exists n, int self (Some v) = ([], inr n).
Proof.
  intros Hne Hv Hlen. unfold int, int_of_digits, lift.
  destruct (digits_value_Some (unicode_decimal self) v 0%Z Hv) as [n Hn].
  destruct v as [|c v]; [done|].
  rewrite Hn, decide_False by lia. eauto.
Qed.

(** *** [get_video_info], step by step *)

Lemma unescape_pure self x : unescape self x = ([], outcome (unescape self x)).
Proof.
  destruct x as [s|]; [|done]. unfold unescape, lift, bind, outcome.
  destruct (encode s); [done|]. simpl. by destruct (unicode_escape_decode _ _).
Qed.

Lemma duration_of_pure self html :
  duration_of self html = ([], outcome (duration_of self html)).
Proof.
  unfold duration_of, int, lift, raise, ret.
  destruct (search _ html) as [m|]; [|done]. by destruct (group1 m).
Qed.

Lemma get_video_info_steps self url video_id response :
  truthy (extract_video_id url) = Some video_id ->
  session_get self (watch_url video_id) = inr response ->
  outcome (get_video_info self url)
  = match outcome (duration_of self (text response)),
          outcome (unescape self (title_of (text response))),
          outcome (unescape self (description_of (text response))) with
    | inr duration, inr title, inr description =>
        inr (video_info video_id title description duration url)
    | inl e, _, _ | inr _, inl e, _ | inr _, inr _, inl e =>
        inr (error (py "Failed to get video info: " ++ str_exn e))
    end.
Proof.
  intros Hid Hget. unfold get_video_info, get. rewrite Hid.
  cbn -[py watch_url video_info]. rewrite Hget. cbn -[py video_info].
  rewrite (duration_of_pure self (text response)).
  destruct (outcome (duration_of self (text response))) as [e|n]; [done|].
  cbn -[py video_info].
  rewrite (unescape_pure self (title_of (text response))).
  destruct (outcome (unescape self (title_of (text response)))) as [e|t]; [done|].
  cbn -[py video_info].
  rewrite (unescape_pure self (description_of (text response))).
  by destruct (outcome (unescape self (description_of (text response)))) as [e|d].
Qed.

Lemma default_title_decodes self :
  outcome (unescape self (Some (py "Unknown Title"))) = inr (py "Unknown Title").
Proof. reflexivity. Qed.

Lemma default_description_decodes self :
  outcome (unescape self (Some (py "No description"))) = inr (py "No description").
Proof. reflexivity. Qed.

(** What [title_of] and [description_of] hand to the decoder *)
Lemma captured_or_default name (dflt : pystr) html :
  exists v,
    match search (keyed name not_quote) html with
    | Some m => group1 m
    | None => Some dflt
    end = Some v
    /\ (search (keyed name not_quote) html = None -> v = dflt)
    /\ (forall m, search (keyed name not_quote) html = Some m -> group1 m = Some v).
Proof.
  destruct (search (keyed name not_quote) html) as [m|] eqn:Hs.
  - destruct (search_keyed_inv _ _ _ _ Hs) as (v & Hv & _).
    exists v. repeat split; [done..|]. by intros ? [= <-].
  - exists dflt. by repeat split.
Qed.

(** C4, as the class has it: when the escapes of a captured title and of
    a captured description can be decoded and a captured duration is
    within the limit on integer literals, the call returns the metadata,
    and each field whose pattern is absent has its default, whatever the
    other two patterns do. *)
Theorem get_video_info_defaults_C4 (self : Runtime) (url video_id : pystr)
  (response : Response) :
  truthy (extract_video_id url) = Some video_id ->
  session_get self (watch_url video_id) = inr response ->
  (forall m v, search title_pattern (text response) = Some m ->
               group1 m = Some v -> decodes self v) ->
  (forall m v, search description_pattern (text response) = Some m ->
               group1 m = Some v -> decodes self v) ->
  (forall m v, search (duration_pattern self) (text response) = Some m ->
               group1 m = Some v -> within_int_limit self v) ->
  exists title description duration,
    outcome (get_video_info self url)
    = inr (video_info video_id title description duration url)
    /\ (search title_pattern (text response) = None -> title = py "Unknown Title")
    /\ (search description_pattern (text response) = None ->
        description = py "No description")
    /\ (search (duration_pattern self) (text response) = None -> duration = 0%Z)
    /\ (forall m, search title_pattern (text response) = Some m ->
        outcome (unescape self (group1 m)) = inr title)
    /\ (forall m, search description_pattern (text response) = Some m ->
        outcome (unescape self (group1 m)) = inr description)
    /\ (forall m, search (duration_pattern self) (text response) = Some m ->
        outcome (int self (group1 m)) = inr duration).
Proof.
  intros Hid Hget Htitle Hdesc Hdur.
  rewrite (get_video_info_steps self url video_id response Hid Hget).
  set (html := text response) in *.
  (* the duration *)
  assert (Hn : exists n, outcome (duration_of self html) = inr n
             /\ (search (duration_pattern self) html = None -> n = 0%Z)
             /\ (forall m, search (duration_pattern self) html = Some m ->
                 outcome (int self (group1 m)) = inr n)).
  { unfold duration_of.
    destruct (search (duration_pattern self) html) as [m|] eqn:Hs.
    - destruct (search_keyed_inv "lengthSeconds" _ _ _ Hs) as (v & Hv & Hne & Hall).
      destruct (int_of_captured self v Hne Hall (Hdur m v eq_refl Hv)) as [n Hint].
      exists n. rewrite Hv, Hint. repeat split; [done|].
      intros ? [= <-]. by rewrite Hv, Hint.
    - exists 0%Z. by repeat split. }
  destruct Hn as (n & -> & Hn0 & Hn).
  (* the title *)
  destruct (captured_or_default "title" (py "Unknown Title") html)
    as (tv & Htv & Htdef & Htcap).
  assert (Ht : exists t, outcome (unescape self (Some tv)) = inr t).
  { destruct (search title_pattern html) as [m|] eqn:Hs.
    - apply (Htitle m tv eq_refl). by apply Htcap.
    - rewrite (Htdef Hs). eexists. apply default_title_decodes. }
  destruct Ht as [t Ht].
  (* the description *)
  destruct (captured_or_default "shortDescription" (py "No description") html)
    as (dv & Hdv & Hddef & Hdcap).
  assert (Hd : exists d, outcome (unescape self (Some dv)) = inr d).
  { destruct (search description_pattern html) as [m|] eqn:Hs.
    - apply (Hdesc m dv eq_refl). by apply Hdcap.
    - rewrite (Hddef Hs). eexists. apply default_description_decodes. }
  destruct Hd as [d Hd].
  unfold title_of, description_of.
  change title_pattern with (keyed "title" not_quote) in *.
  change description_pattern with (keyed "shortDescription" not_quote) in *.
  rewrite Htv, Hdv, Ht, Hd.
  exists t, d, n. repeat split; try done.
  - intros Hs. rewrite (Htdef Hs) in Ht.
    rewrite default_title_decodes in Ht. congruence.
  - intros Hs. rewrite (Hddef Hs) in Hd.
    rewrite default_description_decodes in Hd. congruence.
  - intros m Hs. by rewrite (Htcap m Hs).
  - intros m Hs. by rewrite (Hdcap m Hs).
Qed.

Lemma get_video_info_defaults_C4_witness :
  exists title description duration,
    outcome (get_video_info (fixed_runtime (ok example_page) no_tree)
               (py "https://youtu.be/dQw4w9WgXcQ"))
    = inr (video_info (py "dQw4w9WgXcQ") title description duration
             (py "https://youtu.be/dQw4w9WgXcQ"))
    /\ description = py "No description" /\ duration = 0%Z.
Proof.
  destruct (get_video_info_defaults_C4
              (fixed_runtime (ok example_page) no_tree)
              (py "https://youtu.be/dQw4w9WgXcQ") (py "dQw4w9WgXcQ")
              {| status_code := 200; text := example_page |})
    as (t & d & n & H & _ & Hd & Hn & _).
  - by vm_compute.
  - reflexivity.
  - intros m v Hm Hv. vm_compute in Hm. injection Hm as <-.
    injection Hv as <-. eexists. by vm_compute.
  - intros m v Hm. by vm_compute in Hm.
  - intros m v Hm. by vm_compute in Hm.
  - exists t, d, n. split; [exact H|]. split; [apply Hd|apply Hn]; by vm_compute.
Defined.

(** C4 fails as stated: in this page the description and the duration are
    absent, the title pattern stops at the escaped double quote, the
    captured title ends in a backslash, its decoding raises, and the call
    returns an error object, not metadata. *)
Lemma get_video_info_C4_counterexample :
  let self := fixed_runtime (ok quoted_title_page) no_tree in
  search description_pattern quoted_title_page = None
  /\ search (duration_pattern self) quoted_title_page = None
  /\ title_of quoted_title_page = Some (py "Say \")
  /\ outcome (get_video_info self (py "https://youtu.be/dQw4w9WgXcQ"))
     = inr (error (py "Failed to get video info: 'unicodeescape' codec can't decode byte 0x5c in position 4: \ at end of string")).
Proof. repeat split; by vm_compute. Qed.

(** *** The decoder on one escape sequence between plain text *)

Lemma ascii_plain_inv c :
  ascii_plain c = true -> is_surrogate c = false /\ N.eqb c (ch "\") = false
                          /\ utf8_encode_char c = [c].
Proof.
  unfold ascii_plain, is_ascii, backslash, is_surrogate, utf8_encode_char.
  intros [Hc Hb]%andb_true_iff. apply negb_true_iff in Hb.
  rewrite Hc. repeat split; [|done].
  apply N.ltb_lt in Hc. apply andb_false_iff. left. apply N.leb_gt. lia.
Qed.

Lemma utf8_encode_ascii pos (s : pystr) :
  forallb is_ascii s = true -> utf8_encode_from pos s = inr s.
Proof.
  revert pos. induction s as [|c s IH]; intros pos H; [done|].
  cbn [forallb] in H. apply andb_true_iff in H as [Hc Hs].
  cbn [utf8_encode_from]. unfold is_ascii in Hc.
  assert (Hsur : is_surrogate c = false).
  { unfold is_surrogate. apply N.ltb_lt in Hc.
    apply andb_false_iff. left. apply N.leb_gt. lia. }
  rewrite Hsur, IH by done. unfold utf8_encode_char. by rewrite Hc.
Qed.

Lemma ascii_plain_ascii (s : pystr) :
  forallb ascii_plain s = true -> forallb is_ascii s = true.
Proof.
  induction s as [|c s IH]; [done|]. cbn [forallb].
  intros [Hc Hs]%andb_true_iff. unfold ascii_plain in Hc.
  apply andb_true_iff in Hc as [-> _]. by apply IH.
Qed.

Lemma unicode_escape_app_plain getcode input pos (a rest : bytes) :
  forallb ascii_plain a = true ->
  unicode_escape_from getcode input 0 pos (a ++ rest)
  = match unicode_escape_from getcode input 0 (pos + length a) rest with
    | inr t => inr (a ++ t)
    | inl e => inl e
    end.
Proof.
  revert pos. induction a as [|c a IH]; intros pos H.
  - simpl. rewrite Nat.add_0_r. by destruct (unicode_escape_from _ _ _ _ _).
  - cbn [forallb] in H. apply andb_true_iff in H as [Hc Ha].
    destruct (ascii_plain_inv c Hc) as (_ & Hb & _).
    cbn [app unicode_escape_from]. rewrite Hb, IH by done.
    replace (S pos + length a) with (pos + length (c :: a)) by (simpl; lia).
    by destruct (unicode_escape_from _ _ _ _ _).
Qed.

Lemma unicode_escape_skip getcode input pos (x s : bytes) :
  unicode_escape_from getcode input (length x) pos (x ++ s)
  = unicode_escape_from getcode input 0 (pos + length x) s.
Proof.
  revert pos. induction x as [|c x IH]; intros pos.
  - simpl. rewrite Nat.add_0_r. by destruct s.
  - cbn [app length unicode_escape_from]. rewrite IH. f_equal. lia.
Qed.

Lemma unicode_escape_ascii_plain getcode input pos (b : bytes) :
  forallb ascii_plain b = true ->
  unicode_escape_from getcode input 0 pos b = inr b.
Proof.
  intros Hb.
  pose proof (unicode_escape_app_plain getcode input pos b [] Hb) as H.
  cbn [unicode_escape_from] in H. by rewrite !app_nil_r in H.
Qed.

(** One escape sequence [esc] after the backslash, between stretches
    of ASCII text without a backslash, is replaced by what it stands
    for, and the text around it is kept. *)
Lemma unescape_one_escape self (a esc out b : pystr) :
  forallb ascii_plain a = true -> forallb is_ascii esc = true ->
  forallb ascii_plain b = true ->
  escape (unicode_name self) (esc ++ b) = Decoded out (length esc) ->
  unescape self (Some (a ++ backslash :: esc ++ b)) = ([], inr (a ++ out ++ b)).
Proof.
  intros Ha Hesc Hb Hdec. unfold unescape, encode, lift, bind.
  rewrite utf8_encode_ascii.
  2:{ rewrite forallb_app. cbn [forallb].
      rewrite forallb_app, (ascii_plain_ascii a Ha), (ascii_plain_ascii b Hb), Hesc.
      done. }
  cbn [fst snd app]. unfold unicode_escape_decode.
  rewrite unicode_escape_app_plain by done.
  cbn [unicode_escape_from]. unfold backslash. rewrite N.eqb_refl, Hdec.
  by rewrite unicode_escape_skip, unicode_escape_ascii_plain.
Qed.

(** The cases of a number below sixteen, each closed by evaluation *)
Ltac by_digit n :=
  destruct n as [|n]; [|do 4 (try destruct n as [n|n|])];
  first [reflexivity | lia].

Lemma hex_value_digit (n : N) :
  (n < 16)%N -> hex_value (hex_digit n) = Some n.
Proof. intros H. by_digit n. Qed.

Lemma hex_digit_ascii (n : N) : (n < 16)%N -> is_ascii (hex_digit n) = true.
Proof. intros H. by_digit n. Qed.

Lemma octal_value_digit (o : N) :
  (o < 8)%N -> octal_value (hex_digit o) = Some o.
Proof. intros H. by_digit o. Qed.

Lemma hex_digits_ascii (ds : list N) :
  Forall (fun d => (d < 16)%N) ds -> forallb is_ascii (map hex_digit ds) = true.
Proof.
  induction 1 as [|d ds Hd _ IH]; [done|].
  cbn [map forallb]. by rewrite hex_digit_ascii, IH.
Qed.

Lemma escape_simple getcode (c v : char) (b : bytes) :
  (c, v) ∈ simple_escapes -> escape getcode ([c] ++ b) = Decoded [v] 1.
Proof.
  unfold simple_escapes. rewrite !elem_of_cons.
  intros H.
  repeat (destruct H as [[= -> ->]|H]; [reflexivity|]).
  by apply elem_of_nil in H.
Qed.

Lemma escape_octal_digit getcode (o : N) (s : bytes) :
  (o < 8)%N -> escape getcode (hex_digit o :: s) = octal_escape o s.
Proof. intros H. by_digit o. Qed.

(** One to three octal digits, the longest run there is *)
Lemma escape_octal getcode (os : list N) (b : bytes) :
  os <> [] -> length os <= 3 -> Forall (fun o => (o < 8)%N) os ->
  length os = 3 \/ no_octal_ahead b ->
  escape getcode (map hex_digit os ++ b) = Decoded [number_of 8 os] (length os).
Proof.
  intros Hne Hlen Hos Hb.
  assert (Hahead : length os = 3 \/
                   match b with c :: _ => octal_value c = None | [] => True end).
  { destruct Hb as [?|Hb]; [by left|right]. destruct b as [|c b]; [done|].
    by apply Hb. }
  clear Hb.
  destruct os as [|o1 [|o2 [|o3 [|o4 os]]]]; [done| | | |simpl in Hlen; lia].
  - apply Forall_cons in Hos as [H1 _]. cbn [map app].
    rewrite escape_octal_digit by done.
    destruct Hahead as [?|Hahead]; [done|].
    unfold octal_escape. destruct b as [|c b]; [done|]. by rewrite Hahead.
  - apply Forall_cons in Hos as [H1 [H2 _]%Forall_cons]. cbn [map app].
    rewrite escape_octal_digit by done.
    destruct Hahead as [?|Hahead]; [done|].
    unfold octal_escape. rewrite octal_value_digit by done.
    destruct b as [|c b]; [done|]. by rewrite Hahead.
  - apply Forall_cons in Hos as [H1 [H2 [H3 _]%Forall_cons]%Forall_cons].
    cbn [map app]. rewrite escape_octal_digit by done.
    unfold octal_escape. by rewrite !octal_value_digit.
Qed.

Lemma hex_escape_digits reason (ds : list N) (b : bytes) acc read :
  Forall (fun d => (d < 16)%N) ds ->
  hex_escape (length ds) acc read (map hex_digit ds ++ b) reason
  = if (1114111 <? fold_left (fun acc d => acc * 16 + d) ds acc)%N
    then Faulty (read + length ds) "illegal Unicode character"
    else Decoded [fold_left (fun acc d => acc * 16 + d)%N ds acc]
           (read + length ds).
Proof.
  intros Hds. revert acc read.
  induction Hds as [|d ds Hd _ IH]; intros acc read.
  - cbn [length map app hex_escape fold_left]. by rewrite Nat.add_0_r.
  - cbn [length map app hex_escape fold_left].
    rewrite hex_value_digit, IH by done.
    by replace (S read + length ds) with (read + S (length ds)) by lia.
Qed.

(** A hexadecimal escape with all its digits, of a legal code point *)
Lemma escape_hex getcode (letter : char) (count : nat) (ds : list N) (b : bytes) :
  (letter, count) ∈ hex_escapes -> length ds = count ->
  Forall (fun d => (d < 16)%N) ds -> (number_of 16 ds <= 1114111)%N ->
  escape getcode ((letter :: map hex_digit ds) ++ b)
  = Decoded [number_of 16 ds] (length (letter :: map hex_digit ds)).
Proof.
  intros Hin Hlen Hds Hmax.
  assert (Hesc : exists reason,
             escape getcode ((letter :: map hex_digit ds) ++ b)
             = hex_escape count 0 1 (map hex_digit ds ++ b) reason).
  { unfold hex_escapes in Hin. rewrite !elem_of_cons in Hin.
    repeat (destruct Hin as [[= -> ->]|Hin]; [by eexists|]).
    by apply elem_of_nil in Hin. }
  destruct Hesc as [reason ->]. subst count.
  rewrite hex_escape_digits by done. fold (number_of 16 ds).
  destruct (N.ltb_spec 1114111 (number_of 16 ds)); [lia|].
  cbn [length]. by rewrite length_map.
Qed.

(** A named escape whose name the table knows *)
Lemma escape_named getcode (name : bytes) (c : char) (b : bytes) :
  name <> [] -> forallb not_close_brace name = true -> getcode name = Some c ->
  escape getcode ((ch "N" :: ch "{" :: name ++ [ch "}"]) ++ b)
  = Decoded [c] (length (ch "N" :: ch "{" :: name ++ [ch "}"])).
Proof.
  intros Hne Hname Hc.
  change (escape getcode ((ch "N" :: ch "{" :: name ++ [ch "}"]) ++ b))
    with (name_escape getcode (ch "{" :: (name ++ [ch "}"]) ++ b)).
  unfold name_escape. rewrite N.eqb_refl, <- app_assoc. cbn [app].
  pose proof (span_stop not_close_brace name (ch "}") b Hname eq_refl) as Hs.
  unfold bytes, pystr, char in *. rewrite Hs.
  destruct name as [|x name]; [done|].
  change (drop (length (x :: name)) ((x :: name) ++ ch "}" :: b))
    with (drop (length name) (name ++ ch "}" :: b)).
  rewrite drop_app_length, Hc. f_equal. cbn [length]. rewrite length_app.
  simpl. lia.
Qed.

(** What [description_of] hands to the decoder *)
Lemma description_of_search html :
  match search description_pattern html with
  | Some m => exists v, group1 m = Some v /\ description_of html = Some v
  | None => description_of html = Some (py "No description")
  end.
Proof.
  unfold description_of.
  destruct (search description_pattern html) as [m|] eqn:Hs; [|done].
  change description_pattern with (keyed "shortDescription" not_quote) in Hs.
  destruct (search_keyed_inv _ _ _ _ Hs) as (v & Hv & _). eauto.
Qed.

(** C3: when the first title in the page is [Foo\u0026Bar] and what is
    captured of a duration is within the limit on integer literals, the
    title of the metadata is [Foo&Bar]; the description is the default
    when the page has none, and otherwise the first captured description
    with its escapes decoded; when that decoding raises, the call returns
    the error object.  Decoding replaces a one-letter escape, an octal
    escape of one to three digits, a hexadecimal escape of two, four or
    eight digits that writes a code point, and a named escape whose name
    the table knows, by the character it stands for, and keeps the ASCII
    text around it. *)
Theorem get_video_info_title_decoded_C3 (self : Runtime) (url video_id : pystr)
  (response : Response) (pre post : pystr) :
  truthy (extract_video_id url) = Some video_id ->
  session_get self (watch_url video_id) = inr response ->
  text response = pre ++ key "title" ++ py "Foo\u0026Bar" ++ quote ++ post ->
  occurs_within (length pre) (key "title") (text response) = false ->
  (forall m v, search (duration_pattern self) (text response) = Some m ->
               group1 m = Some v -> within_int_limit self v) ->
  (exists duration,
      (search description_pattern (text response) = None ->
       outcome (get_video_info self url)
       = inr (video_info video_id (py "Foo&Bar") (py "No description")
                duration url))
      /\ (forall m (v description : pystr),
          search description_pattern (text response) = Some m ->
          group1 m = Some v ->
          outcome (unescape self (Some v)) = inr description ->
          outcome (get_video_info self url)
          = inr (video_info video_id (py "Foo&Bar") description duration url))
      /\ (forall m (v : pystr) e,
          search description_pattern (text response) = Some m ->
          group1 m = Some v ->
          outcome (unescape self (Some v)) = inl e ->
          outcome (get_video_info self url)
          = inr (error (py "Failed to get video info: " ++ str_exn e)))
      /\ (forall dpre v dpost description : pystr,
          text response
          = dpre ++ key "shortDescription" ++ v ++ quote ++ dpost ->
          occurs_within (length dpre) (key "shortDescription") (text response)
          = false ->
          v <> [] -> forallb not_quote v = true ->
          outcome (unescape self (Some v)) = inr description ->
          outcome (get_video_info self url)
          = inr (video_info video_id (py "Foo&Bar") description duration url)))
  /\ (forall a b : pystr,
      forallb ascii_plain a = true -> forallb ascii_plain b = true ->
      (forall c v, (c, v) ∈ simple_escapes ->
       outcome (unescape self (Some (a ++ backslash :: c :: b)))
       = inr (a ++ v :: b))
      /\ (forall os : list N,
          os <> [] -> length os <= 3 -> Forall (fun o => (o < 8)%N) os ->
          length os = 3 \/ no_octal_ahead b ->
          outcome (unescape self (Some (a ++ backslash :: map hex_digit os ++ b)))
          = inr (a ++ number_of 8 os :: b))
      /\ (forall letter count (ds : list N),
          (letter, count) ∈ hex_escapes -> length ds = count ->
          Forall (fun d => (d < 16)%N) ds -> (number_of 16 ds <= 1114111)%N ->
          outcome (unescape self
                     (Some (a ++ backslash :: letter :: map hex_digit ds ++ b)))
          = inr (a ++ number_of 16 ds :: b))
      /\ (forall (name : pystr) c,
          name <> [] -> forallb is_ascii name = true ->
          forallb not_close_brace name = true ->
          unicode_name self name = Some c ->
          outcome (unescape self
                     (Some (a ++ backslash :: ch "N" :: ch "{" :: name
                              ++ ch "}" :: b)))
          = inr (a ++ c :: b))).
Proof.
  intros Hid Hget Hbody Hfree Hdur. split.
  - rewrite (get_video_info_steps self url video_id response Hid Hget).
    assert (Htitle : title_of (text response) = Some (py "Foo\u0026Bar")).
    { unfold title_of. change title_pattern with (keyed "title" not_quote).
      rewrite Hbody in Hfree |- *. by rewrite search_keyed. }
    assert (Hn : exists n, outcome (duration_of self (text response)) = inr n).
    { unfold duration_of.
      destruct (search (duration_pattern self) (text response)) as [m|] eqn:Hs;
        [|by eexists].
      destruct (search_keyed_inv "lengthSeconds" _ _ _ Hs) as (v & Hv & Hne & Hall).
      destruct (int_of_captured self v Hne Hall (Hdur m v eq_refl Hv)) as [n Hi].
      exists n. by rewrite Hv, Hi. }
    destruct Hn as [n Hn]. exists n. rewrite Hn, Htitle.
    assert (Hdec : outcome (unescape self (Some (py "Foo\u0026Bar")))
                   = inr (py "Foo&Bar")) by reflexivity.
    rewrite Hdec.
    pose proof (description_of_search (text response)) as Hd.
    assert (Hcap : forall m v,
               search description_pattern (text response) = Some m ->
               group1 m = Some v -> description_of (text response) = Some v).
    { intros m v Hs Hv. rewrite Hs in Hd. destruct Hd as (v' & Hv' & Hd).
      congruence. }
    split; [|split; [|split]].
    + intros Hs. rewrite Hs in Hd. by rewrite Hd, default_description_decodes.
    + intros m v d Hs Hv Hdv. by rewrite (Hcap m v Hs Hv), Hdv.
    + intros m v e Hs Hv Hdv. by rewrite (Hcap m v Hs Hv), Hdv.
    + intros dpre v dpost d Htext Hdfree Hne Hall Hdv.
      assert (Hs : search description_pattern (text response)
                   = Some (MatchObj (length dpre) dpost (Some v))).
      { change description_pattern with (keyed "shortDescription" not_quote).
        rewrite Htext in Hdfree |- *. by rewrite search_keyed. }
      by rewrite (Hcap _ v Hs eq_refl), Hdv.
  - intros a b Ha Hb. split; [|split; [|split]].
    + intros c v Hcv.
      assert (Hesc : forallb is_ascii [c] = true).
      { cbn [forallb]. rewrite andb_true_r.
        unfold simple_escapes in Hcv. rewrite !elem_of_cons in Hcv.
        repeat (destruct Hcv as [[= -> ->]|Hcv]; [reflexivity|]).
        by apply elem_of_nil in Hcv. }
      exact (f_equal outcome
               (unescape_one_escape self a [c] [v] b Ha Hesc Hb
                  (escape_simple _ c v b Hcv))).
    + intros os Hne Hlen Hos Hahead.
      assert (Hesc : forallb is_ascii (map hex_digit os) = true).
      { apply hex_digits_ascii. eapply Forall_impl; [exact Hos|].
        intros o Ho. simpl in Ho. lia. }
      pose proof (escape_octal (unicode_name self) os b Hne Hlen Hos Hahead) as Hdec.
      rewrite <- (length_map hex_digit os) in Hdec.
      exact (f_equal outcome
               (unescape_one_escape self a _ _ b Ha Hesc Hb Hdec)).
    + intros letter count ds Hin Hlen Hds Hmax.
      assert (Hesc : forallb is_ascii (letter :: map hex_digit ds) = true).
      { cbn [forallb]. rewrite hex_digits_ascii by done. rewrite andb_true_r.
        unfold hex_escapes in Hin. rewrite !elem_of_cons in Hin.
        repeat (destruct Hin as [[= -> ->]|Hin]; [reflexivity|]).
        by apply elem_of_nil in Hin. }
      exact (f_equal outcome
               (unescape_one_escape self a _ _ b Ha Hesc Hb
                  (escape_hex _ letter count ds b Hin Hlen Hds Hmax))).
    + intros name c Hne Hascii Hname Hc.
      assert (Hesc : forallb is_ascii (ch "N" :: ch "{" :: name ++ [ch "}"])
                     = true).
      { cbn [forallb]. rewrite forallb_app, Hascii. done. }
      pose proof (unescape_one_escape self a _ _ b Ha Hesc Hb
                    (escape_named _ name c b Hne Hname Hc)) as H.
      cbn [app] in H. rewrite <- app_assoc in H.
      exact (f_equal outcome H).
Qed.

Lemma get_video_info_title_decoded_C3_witness :
  (exists duration,
    outcome (get_video_info (fixed_runtime (ok example_page) no_tree)
               (py "https://youtu.be/dQw4w9WgXcQ"))
    = inr (video_info (py "dQw4w9WgXcQ") (py "Foo&Bar") (py "No description")
             duration (py "https://youtu.be/dQw4w9WgXcQ")))
  /\ outcome (unescape (fixed_runtime (ok example_page) no_tree)
                (Some (py "a\101b")))
     = inr (py "aAb").
Proof.
  destruct (get_video_info_title_decoded_C3
              (fixed_runtime (ok example_page) no_tree)
              (py "https://youtu.be/dQw4w9WgXcQ") (py "dQw4w9WgXcQ")
              {| status_code := 200; text := example_page |}
              (py "<script>{") (py "}</script>"))
    as [(n & Hnone & _) Hdec].
  - by vm_compute.
  - reflexivity.
  - reflexivity.
  - by vm_compute.
  - intros m v Hm. by vm_compute in Hm.
  - split.
    + exists n. apply Hnone. by vm_compute.
    + destruct (Hdec (py "a") (py "b") eq_refl eq_refl) as (_ & Hoct & _).
      apply (Hoct [1; 0; 1]%N); [done|simpl; lia| |by left].
      repeat constructor.
Defined.

(** C3 fails as stated.  Both pages contain the title [Foo\u0026Bar]
    between its key and a double quote.  In the first an earlier title
    comes first, and the call returns that one.  In the second the
    description pattern stops at an escaped double quote, the captured
    description ends in a backslash, its decoding raises, and the call
    returns an error object, which has no title. *)
Lemma get_video_info_C3_counterexample :
  occurs (key "title" ++ py "Foo\u0026Bar" ++ quote) two_titles_page = true
  /\ outcome (get_video_info (fixed_runtime (ok two_titles_page) no_tree)
                (py "https://youtu.be/dQw4w9WgXcQ"))
     = inr (video_info (py "dQw4w9WgXcQ") (py "A") (py "No description") 0
              (py "https://youtu.be/dQw4w9WgXcQ"))
  /\ occurs (key "title" ++ py "Foo\u0026Bar" ++ quote) quoted_description_page
     = true
  /\ outcome (get_video_info (fixed_runtime (ok quoted_description_page) no_tree)
                (py "https://youtu.be/dQw4w9WgXcQ"))
     = inr (error (py "Failed to get video info: 'unicodeescape' codec can't decode byte 0x5c in position 1: \ at end of string")).
Proof. repeat split; by vm_compute. Qed.

(** *** [get_transcript], step by step *)

Lemma float_attr_default self e name :
  attrib e !! name = None -> float_attr self e name = ([], inr (S754_zero false)).
Proof. intros H. unfold float_attr. by rewrite H. Qed.

Lemma float_attr_accepted self e name :
  floats_accepted self e -> name ∈ [py "start"; py "dur"] ->
  exists f, float_attr self e name = ([], inr f).
Proof.
  intros Hacc Hname. unfold float_attr.
  destruct (attrib e !! name) as [s|] eqn:Hs; [|by eexists].
  destruct (Hacc name s Hname Hs) as [f ->]. by eexists.
Qed.

Lemma segment_accepted self e :
  floats_accepted self e ->
  exists part, segment self e = ([], inr part) /\ segment_of self e part.
Proof.
  intros Hacc.
  destruct (float_attr_accepted self e (py "start") Hacc) as [st Hst];
    [set_solver|].
  destruct (float_attr_accepted self e (py "dur") Hacc) as [du Hdu];
    [set_solver|].
  eexists. split.
  - unfold segment. rewrite Hst, Hdu. reflexivity.
  - exists st, du. by repeat split.
Qed.

Lemma segment_of_text self elems parts :
  Forall2 (segment_of self) elems parts ->
  map part_text parts = map segment_text elems.
Proof.
  induction 1 as [|e part elems parts (st & du & -> & _) _ IH]; simpl; [done|].
  by rewrite IH.
Qed.

Lemma segment_text_entities e t :
  elem_text e = Some t ->
  occurs (py "&amp;lt;") t = false -> occurs (py "&amp;gt;") t = false ->
  segment_text e = strip (unescape_entities t).
Proof.
  intros Ht Hlt Hgt. unfold segment_text. rewrite Ht. simpl.
  by rewrite clean_up_unescape_entities by (by apply occurs_nowhere).
Qed.

(** C2, as the class has it: for a 200 response that the XML parser
    accepts and whose [text] elements have [start] and [dur] attributes
    that [float] accepts, the result holds one segment for each [text]
    descendant of the root, in document order, and the space-joined texts;
    an absent attribute reads as zero and an absent text as the empty
    string; a text in which neither of the entities for less-than and
    greater-than follows an escaped ampersand has its three entities
    unescaped in one pass and nothing else; the text is trimmed; and the
    element of the example gives the segment of the example. *)
Theorem get_transcript_segments_C2 (self : Runtime) (url lang video_id : pystr)
  (response : Response) (root : Element) :
  truthy (extract_video_id url) = Some video_id ->
  session_get self (transcript_url lang video_id) = inr response ->
  status_code response = 200%Z ->
  fromstring self (text response) = inr root ->
  Forall (floats_accepted self) (findall_descendants (py "text") root) ->
  (exists parts,
      outcome (get_transcript self url lang)
      = inr (VDict
               [(py "video_id", VStr video_id);
                (py "language", VStr lang);
                (py "transcript", VList parts);
                (py "full_text",
                 VStr (join (py " ")
                         (map segment_text
                            (findall_descendants (py "text") root))))])
      /\ Forall2 (segment_of self) (findall_descendants (py "text") root) parts)
  /\ (forall e name, attrib e !! name = None ->
      float_attr self e name = ([], inr (S754_zero false)))
  /\ (forall e, elem_text e = None -> segment_text e = [])
  /\ (forall e t, elem_text e = Some t ->
      occurs (py "&amp;lt;") t = false -> occurs (py "&amp;gt;") t = false ->
      segment_text e = strip (unescape_entities t))
  /\ (forall e, trimmed (segment_text e)
      /\ exists l r, clean_up (default [] (elem_text e)) = l ++ segment_text e ++ r
                     /\ forallb is_space l = true /\ forallb is_space r = true)
  /\ (forall f1 f2 txt,
      float_of_str self (py "1.5") = inr f1 ->
      float_of_str self (py "2.0") = inr f2 ->
      txt = py "A &B" \/ txt = py "A &amp;B" ->
      segment self (text_elem (py "1.5") (py "2.0") txt)
      = ([], inr (VDict [(py "start", VFloat f1);
                         (py "duration", VFloat f2);
                         (py "text", VStr (py "A &B"))]))).
Proof.
  intros Hid Hget H200 Hxml Hacc.
  split; [|split; [|split; [|split; [|split]]]].
  - destruct (mapM_pure (segment self) (segment_of self)
                (findall_descendants (py "text") root)) as (parts & Hparts & Hall).
    { eapply Forall_impl; [exact Hacc|]. intros e He. by apply segment_accepted. }
    exists parts. split; [|done].
    unfold get_transcript, get. rewrite Hid.
    cbn -[py transcript_url]. rewrite Hget. cbn -[py].
    rewrite decide_True by done. rewrite Hxml. cbn -[py].
    rewrite Hparts. cbn -[py]. by rewrite (segment_of_text self _ _ Hall).
  - intros e name. apply float_attr_default.
  - intros e He. unfold segment_text. by rewrite He.
  - apply segment_text_entities.
  - intros e. split; [apply strip_trimmed|apply strip_app].
  - intros f1 f2 txt H1 H2 Htxt. unfold segment, float_attr.
    assert (Hs : attrib (text_elem (py "1.5") (py "2.0") txt) !! py "start"
                 = Some (py "1.5")) by (by vm_compute).
    assert (Hd : attrib (text_elem (py "1.5") (py "2.0") txt) !! py "dur"
                 = Some (py "2.0")) by (by vm_compute).
    rewrite Hs, Hd, H1, H2.
    by destruct Htxt as [-> | ->].
Qed.

Lemma get_transcript_segments_C2_witness :
  outcome (get_transcript
             (fixed_runtime (ok example_body)
                (inr (transcript_of [text_elem (py "1.5") (py "2.0") (py "A &B")])))
             (py "https://youtu.be/dQw4w9WgXcQ") (py "en"))
  = inr (VDict
           [(py "video_id", VStr (py "dQw4w9WgXcQ"));
            (py "language", VStr (py "en"));
            (py "transcript",
             VList [VDict [(py "start", VFloat float_1_5);
                           (py "duration", VFloat float_2_0);
                           (py "text", VStr (py "A &B"))]]);
            (py "full_text", VStr (py "A &B"))]).
Proof.
  destruct (get_transcript_segments_C2
              (fixed_runtime (ok example_body)
                 (inr (transcript_of [text_elem (py "1.5") (py "2.0") (py "A &B")])))
              (py "https://youtu.be/dQw4w9WgXcQ") (py "en") (py "dQw4w9WgXcQ")
              {| status_code := 200; text := example_body |}
              (transcript_of [text_elem (py "1.5") (py "2.0") (py "A &B")]))
    as [(parts & Hout & Hparts) _].
  - by vm_compute.
  - reflexivity.
  - reflexivity.
  - reflexivity.
  - repeat constructor. intros name s Hname Hs.
    apply elem_of_cons in Hname as [->|Hname];
      [|apply list_elem_of_singleton in Hname as ->];
      vm_compute in Hs; injection Hs as <-; by eexists.
  - rewrite Hout. vm_compute in Hparts.
    inversion Hparts as [|e part es ps (st & du & -> & Hst & Hdu) Hrest]; subst.
    inversion Hrest; subst.
    vm_compute in Hst, Hdu. injection Hst as <-. injection Hdu as <-.
    reflexivity.
Defined.

(** C2 fails as stated: a [start] that [float] refuses turns the whole
    answer into an error object with no segment at all; the three
    replacements run one after the other, so that the ampersand the first
    one produces is read again by the second; and a [text] element that is
    the root is not among the elements looked at. *)
Lemma get_transcript_C2_counterexample :
  outcome (get_transcript
             (fixed_runtime (ok bad_start_body)
                (inr (transcript_of [text_elem (py "abc") (py "2.0") (py "x")])))
             (py "https://youtu.be/dQw4w9WgXcQ") (py "en"))
  = inr (error (py "Failed to get transcript: could not convert string to float: 'abc'"))
  /\ segment_text (text_elem (py "1.5") (py "2.0") (py "&amp;lt;")) = py "<"
  /\ unescape_entities (py "&amp;lt;") = py "&lt;"
  /\ findall_descendants (py "text") (text_elem (py "1.5") (py "2.0") (py "A &B")) = [].
Proof. repeat split; by vm_compute. Qed.
End ProcessorTheorems.

(** * Properties beyond the specification *)

Ltac in_list := solve [rewrite ?elem_of_cons; auto 10].

(** ** [extract_video_id], read backwards *)

Module ExtractMore.
Import ReFacts ExtractTheorems ProcessorTheorems.

(** With a continuation that always accepts, a captured run is the longest
    one. *)
Lemma run_group_plus_top p s g rest g1 :
  run (Group (Plus p)) s g (fun s' g' => Some (s', g')) = Some (rest, g1) ->
  span p s <> [] /\ g1 = Some (span p s) /\ s = span p s ++ rest.
Proof.
  intros H.
  assert (Hne : span p s <> []).
  { rewrite run_group_plus in H. destruct s as [|c s]; [done|].
    simpl. by destruct (p c). }
  rewrite (run_group_plus_greedy p s g _ (drop (length (span p s)) s, Some (span p s)))
    in H by done.
  injection H as <- <-. split; [done|]. split; [done|]. apply span_app.
Qed.

Lemma span_stops p s rest :
  s = span p s ++ rest ->
  forallb p (span p s) = true
  /\ (rest = [] \/ exists c rest', rest = c :: rest' /\ p c = false).
Proof.
  intros Hs. split.
  - clear. induction s as [|c s IH]; simpl; [done|].
    destruct (p c) eqn:Hc; simpl; [by rewrite Hc|done].
  - assert (Hrest : rest = drop (length (span p s)) s).
    { rewrite Hs at 2. by rewrite drop_app_length. }
    rewrite Hrest. clear. induction s as [|c s IH]; simpl; [by left|].
    destruct (p c) eqn:Hc; simpl; [done|]. right. by exists c, s.
Qed.

Lemma stops_at_span id post :
  id = span id_char (id ++ post) -> stops_at id post.
Proof.
  intros H. unfold stops_at. rewrite H at 1.
  apply span_stops. by rewrite <- H.
Qed.

Lemma search_from_at r i s m :
  search_from r i s = Some m ->
  exists pre s', s = pre ++ s' /\ match_here r s' = Some (m_rest m, group1 m).
Proof.
  revert i. induction s as [|c s IH]; intros i; simpl.
  - destruct (match_here r []) as [[rest g]|] eqn:Hm; [|done].
    intros [= <-]. by exists [], [].
  - destruct (match_here r (c :: s)) as [[rest g]|] eqn:Hm.
    + intros [= <-]. by exists [], (c :: s).
    + intros H. apply IH in H as (pre & s' & -> & H). by exists (c :: pre), s'.
Qed.

Lemma match_here_lit_run marker p s rest g :
  match_here (Cat (Lit marker) (Group (Plus p))) s = Some (rest, g) ->
  exists id, s = marker ++ id ++ rest /\ g = Some id /\ id <> []
             /\ id = span p (id ++ rest).
Proof.
  unfold match_here. rewrite run_cat, run_lit.
  destruct (strip_prefix marker s) as [s1|] eqn:Hs; [|done].
  apply strip_prefix_Some in Hs as ->.
  intros H. apply run_group_plus_top in H as (Hne & -> & Hs1).
  exists (span p s1). rewrite <- Hs1. by repeat split.
Qed.

Lemma match_here_main_inv s rest g :
  match_here main_pattern s = Some (rest, g) ->
  exists marker id, marker ∈ main_markers /\ s = marker ++ id ++ rest
                    /\ g = Some id /\ id <> [] /\ id = span id_char (id ++ rest).
Proof.
  unfold match_here, main_pattern. rewrite run_cat, !run_or.
  intros H.
  assert (Hcase :
    exists marker, marker ∈ main_markers
      /\ match_here (Cat (Lit marker) (Group (Plus id_char))) s = Some (rest, g)).
  { unfold match_here. setoid_rewrite run_cat.
    destruct (run (Lit watch_marker) s None _) as [a|] eqn:H1.
    - exists watch_marker. split; [unfold main_markers; in_list|congruence].
    - destruct (run (Lit short_marker) s None _) as [a|] eqn:H2.
      + exists short_marker. split; [unfold main_markers; in_list|congruence].
      + exists embed_marker. split; [unfold main_markers; in_list|done]. }
  destruct Hcase as (marker & Hm & Hcase).
  apply match_here_lit_run in Hcase as (id & ? & ? & ? & ?). by exists marker, id.
Qed.

Lemma match_here_watch_any_inv s rest g :
  match_here watch_any_pattern s = Some (rest, g) ->
  exists params id,
    s = py "youtube.com/watch?" ++ params ++ py "v=" ++ id ++ rest
    /\ forallb dot params = true
    /\ g = Some id /\ id <> [] /\ id = span id_char (id ++ rest).
Proof.
  unfold match_here, watch_any_pattern. rewrite run_cat, run_lit.
  destruct (strip_prefix (py "youtube.com/watch?") s) as [s1|] eqn:Hs; [|done].
  apply strip_prefix_Some in Hs as ->.
  rewrite run_cat. simpl run at 1.
  intros H. apply rep_inv in H as (n & Hn & H).
  destruct (match_here_lit_run (py "v=") id_char (drop n s1) rest g H)
    as (id & Hd & ? & ? & ?).
  exists (take n s1), id. split; [|split; [|done]].
  - by rewrite <- Hd, take_drop.
  - by apply forallb_take_span.
Qed.

Lemma starts_with_app_l w1 w2 s :
  starts_with (w1 ++ w2) s = true -> starts_with w1 s = true.
Proof.
  intros H. apply starts_with_true in H as [s' ->].
  rewrite <- (app_assoc w1 w2 s'). unfold starts_with.
  by rewrite strip_prefix_app.
Qed.

Lemma occurs_false_at w s j :
  w <> [] -> occurs w s = false -> starts_with w (drop j s) = false.
Proof. intros Hw H. by apply occurs_nowhere. Qed.

Lemma search_None_without r (w : pystr) url :
  w <> [] ->
  (forall s, starts_with w s = false -> match_here r s = None) ->
  occurs w url = false -> search r url = None.
Proof.
  intros Hw Hr Hocc. apply search_from_None.
  intros j _. apply Hr. by apply occurs_false_at.
Qed.

Lemma match_here_watch_any_None s :
  starts_with (py "youtube.com/watch?") s = false ->
  match_here watch_any_pattern s = None.
Proof.
  intros H. unfold match_here, watch_any_pattern.
  rewrite run_cat. by apply run_lit_None.
Qed.

Lemma forallb_occurs (ws : list pystr) url w :
  forallb (fun w => negb (occurs w url)) ws = true -> w ∈ ws ->
  occurs w url = false.
Proof.
  rewrite forallb_forall. intros H Hw%list_elem_of_In.
  apply negb_true_iff. by apply H.
Qed.

Lemma search_main_None_without (ws : list pystr) url :
  forallb (fun w => negb (occurs w url)) ws = true ->
  short_marker ∈ ws -> embed_marker ∈ ws ->
  (watch_marker ∈ ws \/ py "youtube.com/watch?" ∈ ws) ->
  search main_pattern url = None.
Proof.
  intros Hfree Hs He Hw. apply search_from_None.
  intros j _. apply match_here_main_None.
  intros w Hin. unfold main_markers in Hin.
  apply elem_of_cons in Hin as [->|Hin];
    [|apply elem_of_cons in Hin as [->|Hin];
      [|apply list_elem_of_singleton in Hin as ->]].
  - destruct Hw as [Hw|Hw].
    + apply occurs_false_at; [done|]. by eapply forallb_occurs.
    + destruct (starts_with watch_marker (drop j url)) eqn:Hsw; [|done].
      change watch_marker with (py "youtube.com/watch?" ++ py "v=") in Hsw.
      apply starts_with_app_l in Hsw.
      rewrite occurs_false_at in Hsw; [done..|]. by eapply forallb_occurs.
  - apply occurs_false_at; [done|]. by eapply forallb_occurs.
  - apply occurs_false_at; [done|]. by eapply forallb_occurs.
Qed.

(** X1: a URL in which none of the four markers occurs gives none in the
    class, and a URL in which none of [youtube.com/watch?], [youtu.be/] and
    [youtube.com/embed/] occurs gives none in the command-line script. *)
Theorem extract_video_id_without_marker (url : pystr) :
  (forallb (fun w => negb (occurs w url)) supported_markers = true ->
   Processor.extract_video_id url = None)
  /\ (forallb (fun w => negb (occurs w url)) cli_markers = true ->
      Cli.extract_video_id url = None).
Proof.
  split; intros Hfree.
  - unfold Processor.extract_video_id, first_match.
    rewrite (search_main_None_without supported_markers)
      by first [done | unfold supported_markers; first [in_list | left; in_list]].
    rewrite (search_None_without v_pattern v_marker); [done..| |].
    + apply match_here_v_None.
    + eapply forallb_occurs; [done|]. unfold supported_markers; in_list.
  - unfold Cli.extract_video_id, first_match.
    rewrite (search_main_None_without cli_markers)
      by first [done | unfold cli_markers; first [in_list | right; in_list]].
    rewrite (search_None_without watch_any_pattern (py "youtube.com/watch?"));
      [done..| |].
    + apply match_here_watch_any_None.
    + eapply forallb_occurs; [done|]. unfold cli_markers; in_list.
Qed.

Lemma extract_video_id_without_marker_witness :
  Processor.extract_video_id (py "https://example.com/not-youtube") = None
  /\ Cli.extract_video_id (py "https://example.com/not-youtube") = None.
Proof.
  split.
  - apply (proj1 (extract_video_id_without_marker _)). by vm_compute.
  - apply (proj2 (extract_video_id_without_marker _)). by vm_compute.
Defined.

Lemma main_markers_supported w : w ∈ main_markers -> w ∈ supported_markers.
Proof.
  unfold main_markers, supported_markers. rewrite !elem_of_cons.
  intros [->|[->|[->|Hnil]]]; [in_list..|by apply elem_of_nil in Hnil].
Qed.

(** X2: an id the class extracts stands in the URL directly after one of
    the four markers, is not empty, holds none of ampersand, question mark,
    hash and newline, and is followed by one of those four or by the end of
    the URL. *)
Theorem processor_extract_video_id_shape (url id : pystr) :
  Processor.extract_video_id url = Some id ->
  exists pre marker post,
    url = pre ++ marker ++ id ++ post
    /\ marker ∈ supported_markers
    /\ id <> []
    /\ stops_at id post.
Proof.
  unfold Processor.extract_video_id, first_match.
  destruct (search main_pattern url) as [m|] eqn:Hmain.
  - intros Hg. apply search_from_at in Hmain as (pre & s' & -> & Hm).
    apply match_here_main_inv in Hm as (marker & id' & Hin & -> & Hg' & Hne & Hspan).
    rewrite Hg in Hg'. injection Hg' as <-.
    exists pre, marker, (m_rest m). split; [done|].
    split; [by apply main_markers_supported|].
    split; [done|]. by apply stops_at_span.
  - destruct (search v_pattern url) as [m|] eqn:Hv; [|done].
    intros Hg. apply search_from_at in Hv as (pre & s' & -> & Hm).
    apply match_here_lit_run in Hm as (id' & -> & Hg' & Hne & Hspan).
    rewrite Hg in Hg'. injection Hg' as <-.
    exists pre, v_marker, (m_rest m). split; [done|].
    split; [unfold supported_markers; in_list|].
    split; [done|]. by apply stops_at_span.
Qed.

Lemma processor_extract_video_id_shape_witness :
  exists pre marker post,
    py "https://www.youtube.com/embed/dQw4w9WgXcQ?start=5"
    = pre ++ marker ++ py "dQw4w9WgXcQ" ++ post
    /\ marker ∈ supported_markers
    /\ py "dQw4w9WgXcQ" <> []
    /\ stops_at (py "dQw4w9WgXcQ") post.
Proof.
  refine (processor_extract_video_id_shape _ _ _). by vm_compute.
Defined.

(** X3: an id the command-line script extracts stands in the URL directly
    after one of the three markers of the first pattern, or after
    [youtube.com/watch?], characters of the same line and [v=]; it is not
    empty, holds none of ampersand, question mark, hash and newline, and is
    followed by one of those four or by the end of the URL. *)
Theorem cli_extract_video_id_shape (url id : pystr) :
  Cli.extract_video_id url = Some id ->
  exists lead post,
    url = lead ++ id ++ post /\ cli_lead lead /\ id <> [] /\ stops_at id post.
Proof.
  unfold Cli.extract_video_id, first_match.
  destruct (search main_pattern url) as [m|] eqn:Hmain.
  - intros Hg. apply search_from_at in Hmain as (pre & s' & -> & Hm).
    apply match_here_main_inv in Hm as (marker & id' & Hin & -> & Hg' & Hne & Hspan).
    rewrite Hg in Hg'. injection Hg' as <-.
    exists (pre ++ marker), (m_rest m). rewrite <- app_assoc.
    split; [done|]. split; [left; by exists pre, marker|].
    split; [done|]. by apply stops_at_span.
  - destruct (search watch_any_pattern url) as [m|] eqn:Hw; [|done].
    intros Hg. apply search_from_at in Hw as (pre & s' & -> & Hm).
    apply match_here_watch_any_inv in Hm
      as (params & id' & -> & Hdot & Hg' & Hne & Hspan).
    rewrite Hg in Hg'. injection Hg' as <-.
    exists (pre ++ py "youtube.com/watch?" ++ params ++ py "v="), (m_rest m).
    split; [by rewrite <- !app_assoc|].
    split; [right; by exists pre, params|].
    split; [done|]. by apply stops_at_span.
Qed.

Lemma cli_extract_video_id_shape_witness :
  exists lead post,
    py "https://www.youtube.com/watch?list=X&v=ID&t=1" = lead ++ py "ID" ++ post
    /\ cli_lead lead /\ py "ID" <> [] /\ stops_at (py "ID") post.
Proof.
  refine (cli_extract_video_id_shape _ _ _). by vm_compute.
Defined.





End ExtractMore.

(** ** The command-line script, path by path *)

Module CliMore.
Import ReFacts ExtractTheorems CliTheorems.

Lemma parse_qs_fold (name : pystr) (pairs : list (pystr * pystr))
  (acc : gmap pystr (list pystr)) :
  foldl (fun parsed_result '(n, v) =>
           match parsed_result !! n with
           | Some vs => <[n := vs ++ [v]]> parsed_result
           | None => <[n := [v]]> parsed_result
           end) acc pairs !! name
  = match acc !! name, values_of name pairs with
    | Some vs, more => Some (vs ++ more)
    | None, [] => None
    | None, more => Some more
    end.
Proof.
  revert acc. induction pairs as [|[n v] pairs IH]; intros acc; simpl.
  - destruct (acc !! name); [by rewrite app_nil_r|done].
  - rewrite IH. destruct (decide (n = name)) as [->|Hne].
    + destruct (acc !! name) as [vs|] eqn:Hacc.
      * rewrite lookup_insert_eq. by rewrite <- app_assoc.
      * by rewrite lookup_insert_eq.
    + destruct (acc !! n) as [vs|] eqn:Hacc; by rewrite lookup_insert_ne.
Qed.

Lemma parse_qs_lookup lib qs name :
  parse_qs lib qs !! name
  = match values_of name (parse_qsl lib qs) with
    | [] => None
    | vs => Some vs
    end.
Proof.
  unfold parse_qs. rewrite parse_qs_fold. by rewrite lookup_empty.
Qed.

(** X6: for a URL with an id that [urlparse] accepts, the command-line
    [get_video_info] returns the id, the URL as given, the title made of the
    id, and as timestamp the first value the query gives to [t], or [None]
    when it gives none. *)
Theorem cli_get_video_info_timestamp (lib : UrlLib) (url video_id query : pystr) :
  truthy (Cli.extract_video_id url) = Some video_id ->
  urlparse_query lib url = inr query ->
  Cli.get_video_info lib url
  = ([], inr (cli_video_info video_id url
                (match values_of (py "t") (parse_qsl lib query) with
                 | [] => VNone
                 | t :: _ => VStr t
                 end))).
Proof.
  intros Hid Hq. unfold Cli.get_video_info. rewrite Hid, Hq.
  unfold lift, bind. rewrite parse_qs_lookup.
  by destruct (values_of (py "t") (parse_qsl lib query)).
Qed.

Lemma cli_get_video_info_timestamp_witness :
  Cli.get_video_info plain_lib (py "https://www.youtube.com/watch?v=dQw4w9WgXcQ&t=42")
  = ([], inr (cli_video_info (py "dQw4w9WgXcQ")
                (py "https://www.youtube.com/watch?v=dQw4w9WgXcQ&t=42")
                (VStr (py "42")))).
Proof.
  refine (cli_get_video_info_timestamp plain_lib _ (py "dQw4w9WgXcQ")
            (py "v=dQw4w9WgXcQ&t=42") _ _).
  - by vm_compute.
  - by vm_compute.
Defined.

(** X5: for a URL without an id the command-line script prints the
    invalid-URL object of the action and ends normally, whatever
    [urlparse] would do with that URL. *)
Theorem cli_main_without_id (lib : UrlLib) (script url : pystr)
  (more : list pystr) :
  Cli.extract_video_id url = None ->
  Cli.main lib [script; url]
  = ([Print (Json (Some 2) (VDict [(py "error", VStr (py "Invalid YouTube URL"))]))],
     inr tt)
  /\ Cli.main lib (script :: url :: py "info" :: more)
     = ([Print (Json (Some 2) (VDict [(py "error", VStr (py "Invalid YouTube URL"))]))],
        inr tt)
  /\ Cli.main lib (script :: url :: py "transcript" :: more)
     = ([Print (Json (Some 2) (VDict [(py "error", VStr (py "Invalid URL"))]))],
        inr tt).
Proof.
  intros Hid. unfold Cli.main, Cli.get_video_info. rewrite Hid.
  repeat split.
Qed.

Lemma cli_main_without_id_witness :
  Cli.main plain_lib [py "youtube_processor.py"; py "http://[example.com/abc"]
  = ([Print (Json (Some 2) (VDict [(py "error", VStr (py "Invalid YouTube URL"))]))],
     inr tt).
Proof.
  refine (proj1 (cli_main_without_id plain_lib _ _ [] _)). by vm_compute.
Defined.

(** X7: the command-line [main] either prints exactly one JSON object and
    returns, or prints nothing and lets escape the exception [urlparse]
    raised on a URL that holds an id. *)
Theorem cli_main_prints_or_fails (lib : UrlLib) (argv : list pystr) :
  (exists indent d, Cli.main lib argv = ([Print (Json indent (VDict d))], inr tt))
  \/ (exists url video_id e,
        argv !! 1 = Some url
        /\ Cli.extract_video_id url = Some video_id
        /\ urlparse_query lib url = inl e
        /\ Cli.main lib argv = ([], inl e)).
Proof.
  destruct argv as [|script [|url more]]; [left; by do 2 eexists..|].
  unfold Cli.main.
  destruct (decide _) as [Hinfo|Hinfo].
  - destruct (urlparse_query lib url) as [e|q] eqn:Hq.
    + unfold Cli.get_video_info.
      destruct (Cli.extract_video_id url) as [[|c id]|] eqn:Hid;
        [left; by do 2 eexists| |left; by do 2 eexists].
      right. exists url, (c :: id), e. simpl truthy. rewrite Hq. by repeat split.
    + destruct (get_video_info_returns lib url q Hq) as [d ->].
      left. by do 2 eexists.
  - left. destruct (decide _); [|by do 2 eexists].
    destruct (truthy _); by do 2 eexists.
Qed.
End CliMore.

(** ** The class, path by path *)

Module ProcessorMore.
Import Processor.
Import ReFacts ExtractTheorems ProcessorTheorems.

Lemma truthy_Some (x : option pystr) id :
  x = Some id -> id <> [] -> truthy x = Some id.
Proof. intros -> Hne. by destruct id. Qed.

Lemma processor_extract_truthy url id :
  extract_video_id url = Some id -> truthy (extract_video_id url) = Some id.
Proof.
  intros H. apply truthy_Some; [done|].
  eapply first_match_nonempty; [|exact H]. repeat constructor.
Qed.

Lemma processor_extract_None url :
  extract_video_id url = None -> truthy (extract_video_id url) = None.
Proof. by intros ->. Qed.

(** [get_video_info] once the id is known: one request, then a value. *)
Lemma get_video_info_run self url video_id :
  truthy (extract_video_id url) = Some video_id ->
  get_video_info self url
  = ([HttpGet (watch_url video_id)],
     inr match session_get self (watch_url video_id) with
         | inl e => error (py "Failed to get video info: " ++ str_exn e)
         | inr response =>
             match outcome (duration_of self (text response)),
                   outcome (unescape self (title_of (text response))),
                   outcome (unescape self (description_of (text response))) with
             | inr duration, inr title, inr description =>
                 video_info video_id title description duration url
             | inl e, _, _ | inr _, inl e, _ | inr _, inr _, inl e =>
                 error (py "Failed to get video info: " ++ str_exn e)
             end
         end).
Proof.
  intros Hid. unfold get_video_info, get. rewrite Hid.
  cbn -[py watch_url video_info].
  destruct (session_get self (watch_url video_id)) as [e|response]; [done|].
  cbn -[py video_info].
  rewrite (duration_of_pure self (text response)).
  destruct (outcome (duration_of self (text response))) as [e|n]; [done|].
  cbn -[py video_info].
  rewrite (unescape_pure self (title_of (text response))).
  destruct (outcome (unescape self (title_of (text response)))) as [e|t]; [done|].
  cbn -[py video_info].
  rewrite (unescape_pure self (description_of (text response))).
  by destruct (outcome (unescape self (description_of (text response)))) as [e|d].
Qed.

(** X8: the class's [get_video_info] never raises.  Without an id it
    returns the invalid-URL object and sends no request; with an id it sends
    exactly one request, to the watch page of that id, and returns either a
    failed-to-get-video-info object or the metadata of that id and URL. *)
Theorem get_video_info_never_raises (self : Runtime) (url : pystr) :
  match extract_video_id url with
  | None => get_video_info self url = ([], inr (error (py "Invalid YouTube URL")))
  | Some video_id =>
      exists v,
        get_video_info self url = ([HttpGet (watch_url video_id)], inr v)
        /\ ((exists msg, v = error (py "Failed to get video info: " ++ msg))
            \/ exists title description duration,
                v = video_info video_id title description duration url)
  end.
Proof.
  destruct (extract_video_id url) as [video_id|] eqn:Hid.
  - rewrite (get_video_info_run self url video_id)
      by (by apply processor_extract_truthy).
    eexists. split; [done|].
    destruct (session_get self (watch_url video_id)) as [e|response]; [eauto|].
    destruct (outcome (duration_of self (text response))); [eauto|].
    destruct (outcome (unescape self (title_of (text response)))); [eauto|].
    destruct (outcome (unescape self (description_of (text response)))); eauto 10.
  - unfold get_video_info. by rewrite Hid.
Qed.

(** X9: when the request raises, the message of the exception is
    returned after the words [Failed to get video info: ]. *)
Theorem get_video_info_request_fails (self : Runtime) (url video_id : pystr)
  (e : exn) :
  extract_video_id url = Some video_id ->
  session_get self (watch_url video_id) = inl e ->
  get_video_info self url
  = ([HttpGet (watch_url video_id)],
     inr (error (py "Failed to get video info: " ++ str_exn e))).
Proof.
  intros Hid Hget.
  rewrite (get_video_info_run self url video_id)
    by (by apply processor_extract_truthy).
  by rewrite Hget.
Qed.

Lemma get_video_info_request_fails_witness :
  get_video_info
    (fixed_runtime (inl (Exn "ConnectionError" (py "connection refused"))) no_tree)
    (py "https://youtu.be/dQw4w9WgXcQ")
  = ([HttpGet (watch_url (py "dQw4w9WgXcQ"))],
     inr (error (py "Failed to get video info: " ++ py "connection refused"))).
Proof.
  refine (get_video_info_request_fails _ _ (py "dQw4w9WgXcQ")
            (Exn "ConnectionError" (py "connection refused")) _ _).
  - by vm_compute.
  - reflexivity.
Defined.

(** *** The transcript *)

Lemma float_attr_pure self e name :
  float_attr self e name = ([], outcome (float_attr self e name)).
Proof. unfold float_attr. by destruct (attrib e !! name). Qed.

Lemma segment_pure self e : segment self e = ([], outcome (segment self e)).
Proof.
  unfold segment.
  rewrite (float_attr_pure self e (py "start")).
  destruct (outcome (float_attr self e (py "start"))); [done|].
  rewrite (float_attr_pure self e (py "dur")).
  by destruct (outcome (float_attr self e (py "dur"))).
Qed.

Lemma mapM_no_effect {A B} (f : A -> M B) (l : list A) :
  (forall x, f x = ([], outcome (f x))) ->
  mapM f l = ([], outcome (mapM f l)).
Proof.
  intros Hf. induction l as [|x l IH]; [done|]. simpl.
  rewrite (Hf x). destruct (outcome (f x)); [done|].
  unfold bind at 1 3. rewrite IH. by destruct (outcome (mapM f l)).
Qed.

Lemma mapM_length {A B} (f : A -> M B) (l : list A) ys :
  outcome (mapM f l) = inr ys -> length ys = length l.
Proof.
  revert ys. induction l as [|x l IH]; intros ys; simpl.
  - by intros [= <-].
  - destruct (f x) as [t [e|y]]; [done|]. unfold bind at 1.
    destruct (mapM f l) as [t' [e|ys']]; [done|]. simpl.
    intros [= <-]. simpl. f_equal. by apply IH.
Qed.

Lemma mapM_raises_first {A B} (f : A -> M B) (l1 : list A) x (l2 : list A) e :
  Forall (fun x => exists y, f x = ([], inr y)) l1 ->
  f x = ([], inl e) ->
  mapM f (l1 ++ x :: l2) = ([], inl e).
Proof.
  induction 1 as [|x' l [y Hy] _ IH]; intros Hx; simpl.
  - by rewrite Hx.
  - rewrite Hy. unfold bind at 1. by rewrite IH.
Qed.

Lemma get_transcript_run self url lang video_id :
  truthy (extract_video_id url) = Some video_id ->
  get_transcript self url lang
  = ([HttpGet (transcript_url lang video_id)],
     inr match session_get self (transcript_url lang video_id) with
         | inl e => error (py "Failed to get transcript: " ++ str_exn e)
         | inr response =>
             if decide (status_code response = 200%Z) then
               match fromstring self (text response) with
               | inl e => error (py "Failed to get transcript: " ++ str_exn e)
               | inr root =>
                   match outcome (mapM (segment self)
                                    (findall_descendants (py "text") root)) with
                   | inl e => error (py "Failed to get transcript: " ++ str_exn e)
                   | inr parts =>
                       transcript_object video_id lang parts
                         (join (py " ") (map part_text parts))
                   end
               end
             else error (py "No transcript available for this video")
         end).
Proof.
  intros Hid. unfold get_transcript, get. rewrite Hid.
  cbn -[py transcript_url].
  destruct (session_get self (transcript_url lang video_id)) as [e|response];
    [done|].
  cbn -[py]. destruct (decide (status_code response = 200%Z)) as [H200|H200];
    [|done].
  destruct (fromstring self (text response)) as [e|root]; [done|].
  cbn -[py].
  rewrite (mapM_no_effect (segment self) _ (segment_pure self)).
  by destruct (outcome (mapM (segment self) _)).
Qed.

(** X14: [get_transcript] never raises.  Without an id it returns the
    invalid-URL object and sends no request; with an id it sends exactly one
    request, to the timed-text address of that language and id, and returns
    either an error object or a transcript with as many segments as the
    parsed document has [text] descendants, whose [full_text] is the
    space-joined texts of those segments. *)
Theorem get_transcript_never_raises (self : Runtime) (url lang : pystr) :
  match extract_video_id url with
  | None => get_transcript self url lang
            = ([], inr (error (py "Invalid YouTube URL")))
  | Some video_id =>
      exists v,
        get_transcript self url lang
        = ([HttpGet (transcript_url lang video_id)], inr v)
        /\ ((exists msg, v = error msg)
            \/ exists response root parts,
                session_get self (transcript_url lang video_id) = inr response
                /\ fromstring self (text response) = inr root
                /\ v = transcript_object video_id lang parts
                         (join (py " ") (map part_text parts))
                /\ length parts = length (findall_descendants (py "text") root))
  end.
Proof.
  destruct (extract_video_id url) as [video_id|] eqn:Hid.
  - rewrite (get_transcript_run self url lang video_id)
      by (by apply processor_extract_truthy).
    eexists. split; [done|].
    destruct (session_get self _) as [e|response]; [eauto|].
    destruct (decide _) as [H200|H200]; [|eauto].
    destruct (fromstring self (text response)) as [e|root] eqn:Hxml; [eauto|].
    destruct (outcome (mapM (segment self) _)) as [e|parts] eqn:Hparts; [eauto|].
    right. exists response, root, parts. repeat split; [done|].
    by eapply mapM_length.
  - unfold get_transcript. by rewrite Hid.
Qed.

(** X15: an exception of the request, of the XML parser, or of [float] on
    the first [start] or [dur] it refuses, comes back as the
    failed-to-get-transcript object with the message of that exception. *)
Theorem get_transcript_failures (self : Runtime) (url lang video_id : pystr) :
  extract_video_id url = Some video_id ->
  (forall e, session_get self (transcript_url lang video_id) = inl e ->
             outcome (get_transcript self url lang)
             = inr (error (py "Failed to get transcript: " ++ str_exn e)))
  /\ (forall response e,
        session_get self (transcript_url lang video_id) = inr response ->
        status_code response = 200%Z ->
        fromstring self (text response) = inl e ->
        outcome (get_transcript self url lang)
        = inr (error (py "Failed to get transcript: " ++ str_exn e)))
  /\ (forall response root before elem after name s e,
        session_get self (transcript_url lang video_id) = inr response ->
        status_code response = 200%Z ->
        fromstring self (text response) = inr root ->
        findall_descendants (py "text") root = before ++ elem :: after ->
        Forall (floats_accepted self) before ->
        (name = py "start"
         \/ name = py "dur" /\ exists f, float_attr self elem (py "start")
                                          = ([], inr f)) ->
        attrib elem !! name = Some s ->
        float_of_str self s = inl e ->
        outcome (get_transcript self url lang)
        = inr (error (py "Failed to get transcript: " ++ str_exn e))).
Proof.
  intros Hid. apply processor_extract_truthy in Hid.
  rewrite (get_transcript_run self url lang video_id Hid).
  split; [|split].
  - intros e ->. done.
  - intros response e -> H200 Hxml. simpl.
    by rewrite decide_True, Hxml by done.
  - intros response root before elem after name s e -> H200 Hxml Hsplit Hacc
      Hname Hs He.
    simpl. rewrite decide_True, Hxml, Hsplit by done.
    rewrite (mapM_raises_first (segment self) before elem after e); [done| |].
    + eapply Forall_impl; [exact Hacc|]. intros x Hx.
      destruct (segment_accepted self x Hx) as (part & Hpart & _). eauto.
    + unfold segment. destruct Hname as [->|[-> [f Hf]]].
      * unfold float_attr at 1. by rewrite Hs, He.
      * rewrite Hf. unfold bind at 1. simpl.
        unfold float_attr at 1. by rewrite Hs, He.
Qed.

Lemma get_transcript_failures_witness :
  outcome (get_transcript
             (fixed_runtime (ok bad_start_body)
                (inr (transcript_of
                        [text_elem (py "1.5") (py "2.0") (py "a");
                         text_elem (py "2.0") (py "abc") (py "b");
                         text_elem (py "xyz") (py "2.0") (py "c")])))
             (py "https://youtu.be/dQw4w9WgXcQ") (py "en"))
  = inr (error (py "Failed to get transcript: "
                ++ py "could not convert string to float: '" ++ py "abc" ++ py "'")).
Proof.
  refine (proj2 (proj2 (get_transcript_failures _ _ (py "en") (py "dQw4w9WgXcQ") _))
            {| status_code := 200; text := bad_start_body |} _
            [text_elem (py "1.5") (py "2.0") (py "a")]
            (text_elem (py "2.0") (py "abc") (py "b"))
            [text_elem (py "xyz") (py "2.0") (py "c")]
            (py "dur") (py "abc")
            (Exn "ValueError"
               (py "could not convert string to float: '" ++ py "abc" ++ py "'"))
            _ _ _ _ _ _ _ _).
  - by vm_compute.
  - reflexivity.
  - reflexivity.
  - reflexivity.
  - by vm_compute.
  - repeat constructor. intros name s Hname Hs.
    apply elem_of_cons in Hname as [->|Hname];
      [|apply list_elem_of_singleton in Hname as ->];
      vm_compute in Hs; injection Hs as <-; by eexists.
  - right. split; [done|]. eexists. by vm_compute.
  - by vm_compute.
  - by vm_compute.
Defined.

(** X16: a 200 answer whose document has no [text] descendant gives a
    transcript with no segment and the empty [full_text], not an error. *)
Theorem get_transcript_no_text (self : Runtime) (url lang video_id : pystr)
  (response : Response) (root : Element) :
  extract_video_id url = Some video_id ->
  session_get self (transcript_url lang video_id) = inr response ->
  status_code response = 200%Z ->
  fromstring self (text response) = inr root ->
  findall_descendants (py "text") root = [] ->
  outcome (get_transcript self url lang)
  = inr (transcript_object video_id lang [] []).
Proof.
  intros Hid Hget H200 Hxml Hnone. apply processor_extract_truthy in Hid.
  rewrite (get_transcript_run self url lang video_id Hid).
  simpl. by rewrite Hget, decide_True, Hxml, Hnone by done.
Qed.

Lemma get_transcript_no_text_witness :
  outcome (get_transcript
             (fixed_runtime (ok (py "<transcript/>")) (inr (transcript_of [])))
             (py "https://youtu.be/dQw4w9WgXcQ") (py "th"))
  = inr (transcript_object (py "dQw4w9WgXcQ") (py "th") [] []).
Proof.
  refine (get_transcript_no_text _ _ _ (py "dQw4w9WgXcQ")
            {| status_code := 200; text := py "<transcript/>" |}
            (transcript_of []) _ _ _ _ _).
  - by vm_compute.
  - reflexivity.
  - reflexivity.
  - reflexivity.
  - reflexivity.
Defined.

(** *** The caption list *)

Lemma get_transcript_urls_run self video_id :
  get_transcript_urls self video_id
  = match session_get self (captions_url video_id) with
    | inl e =>
        ([HttpGet (captions_url video_id);
          Print (Text (py "Caption extraction error: " ++ str_exn e))], inr [])
    | inr response =>
        if decide (status_code response = 200%Z) then
          match fromstring self (text response) with
          | inl e =>
              ([HttpGet (captions_url video_id);
                Print (Text (py "Caption extraction error: " ++ str_exn e))],
               inr [])
          | inr root =>
              ([HttpGet (captions_url video_id)],
               inr (map (caption video_id)
                      (findall_descendants (py "track") root)))
          end
        else ([HttpGet (captions_url video_id)], inr [])
    end.
Proof.
  unfold get_transcript_urls, get.
  cbn -[py captions_url].
  destruct (session_get self (captions_url video_id)) as [e|response]; [done|].
  cbn -[py captions_url].
  destruct (decide (status_code response = 200%Z)) as [H200|H200]; [|done].
  by destruct (fromstring self (text response)) as [e|root].
Qed.

(** X18: on a 200 answer that parses, [get_transcript_urls] sends one
    request, prints nothing, and returns one caption for each [track]
    descendant, in document order; a caption's language code is the
    attribute or [en], its name is the attribute or the language code, and
    its address is the timed-text address of that language code and id. *)
Theorem get_transcript_urls_captions (self : Runtime) (video_id : pystr)
  (response : Response) (root : Element) :
  session_get self (captions_url video_id) = inr response ->
  status_code response = 200%Z ->
  fromstring self (text response) = inr root ->
  get_transcript_urls self video_id
  = ([HttpGet (captions_url video_id)],
     inr (map (caption video_id) (findall_descendants (py "track") root)))
  /\ forall track,
      exists lang_code name,
        caption video_id track
        = VDict [(py "lang_code", VStr lang_code);
                 (py "name", VStr name);
                 (py "url", VStr (transcript_url lang_code video_id))]
        /\ (attrib track !! py "lang_code" = None -> lang_code = py "en")
        /\ (forall l, attrib track !! py "lang_code" = Some l -> lang_code = l)
        /\ (attrib track !! py "name" = None -> name = lang_code)
        /\ (forall n, attrib track !! py "name" = Some n -> name = n).
Proof.
  intros Hget H200 Hxml. split.
  - by rewrite get_transcript_urls_run, Hget, decide_True, Hxml.
  - intros track. unfold caption.
    do 2 eexists. split; [reflexivity|].
    destruct (attrib track !! py "lang_code") as [l|];
      destruct (attrib track !! py "name") as [n|]; simpl;
      repeat split; congruence.
Qed.

Lemma get_transcript_urls_captions_witness :
  get_transcript_urls
    (fixed_runtime (ok (py "<transcript_list><track/></transcript_list>"))
       (inr (Elem (py "transcript_list") ∅ None [Elem (py "track") ∅ None []])))
    (py "dQw4w9WgXcQ")
  = ([HttpGet (captions_url (py "dQw4w9WgXcQ"))],
     inr (map (caption (py "dQw4w9WgXcQ"))
            (findall_descendants (py "track")
               (Elem (py "transcript_list") ∅ None
                  [Elem (py "track") ∅ None []])))).
Proof.
  refine (proj1 (get_transcript_urls_captions _ _
                   {| status_code := 200;
                      text := py "<transcript_list><track/></transcript_list>" |}
                   _ _ _ _)).
  - reflexivity.
  - reflexivity.
  - reflexivity.
Defined.

(** X19: [get_transcript_urls] sends exactly one request, and prints the
    one line [Caption extraction error: ...] exactly when the request or the
    XML parser raised; a status other than 200 prints nothing. *)
Theorem get_transcript_urls_diagnostic (self : Runtime) (video_id : pystr) :
  trace (get_transcript_urls self video_id)
  = HttpGet (captions_url video_id)
    :: match session_get self (captions_url video_id) with
       | inl e => [Print (Text (py "Caption extraction error: " ++ str_exn e))]
       | inr response =>
           if decide (status_code response = 200%Z) then
             match fromstring self (text response) with
             | inl e =>
                 [Print (Text (py "Caption extraction error: " ++ str_exn e))]
             | inr _ => []
             end
           else []
       end.
Proof.
  rewrite get_transcript_urls_run.
  destruct (session_get self (captions_url video_id)) as [e|response]; [done|].
  destruct (decide (status_code response = 200%Z)) as [H200|H200]; [|done].
  by destruct (fromstring self (text response)).
Qed.

(** X20: the address in a caption is the address [get_transcript] requests
    when it is called with the caption's language code for a URL of the
    same id. *)
Theorem caption_url_is_requested (self : Runtime) (url video_id : pystr)
  (track : Element) :
  extract_video_id url = Some video_id ->
  exists lang_code name address,
    caption video_id track
    = VDict [(py "lang_code", VStr lang_code);
             (py "name", VStr name);
             (py "url", VStr address)]
    /\ trace (get_transcript self url lang_code) = [HttpGet address].
Proof.
  intros Hid. apply processor_extract_truthy in Hid.
  do 3 eexists. split; [reflexivity|].
  by rewrite (get_transcript_run self url _ video_id Hid).
Qed.

Lemma caption_url_is_requested_witness :
  exists lang_code name address,
    caption (py "dQw4w9WgXcQ") (Elem (py "track") ∅ None [])
    = VDict [(py "lang_code", VStr lang_code);
             (py "name", VStr name);
             (py "url", VStr address)]
    /\ trace (get_transcript (fixed_runtime not_found no_tree)
                (py "https://youtu.be/dQw4w9WgXcQ") lang_code)
       = [HttpGet address].
Proof.
  refine (caption_url_is_requested _ _ (py "dQw4w9WgXcQ") _ _). by vm_compute.
Defined.

(** *** The text of a segment *)

Lemma pass_no_first a rest repl (s : pystr) :
  char_in s a = false -> sub (Lit (a :: rest)) repl s = s.
Proof.
  induction s as [|c s IH]; [done|]. intros H.
  change (char_in (c :: s) a) with (N.eqb a c || char_in s a) in H.
  apply orb_false_iff in H as [Hc Hs].
  rewrite pass_copy.
  - by rewrite (IH Hs).
  - rewrite starts_with_cons. by rewrite Hc.
Qed.

Lemma pass_length a rest r (s : pystr) :
  length (sub (Lit (a :: rest)) [r] s) <= length s.
Proof.
  remember (length s) as n eqn:Hn. revert s Hn.
  induction n as [n IH] using lt_wf_ind. intros s Hn.
  destruct s as [|c s]; [vm_compute; lia|].
  destruct (starts_with (a :: rest) (c :: s)) eqn:Hent.
  - apply starts_with_true in Hent as [s' Hs]. rewrite Hs, pass_entity.
    assert (length (sub (Lit (a :: rest)) [r] s') <= length s').
    { apply (IH (length s')); [|done]. rewrite Hn, Hs. simpl.
      rewrite length_app. lia. }
    subst n. rewrite Hs. simpl. rewrite length_app. lia.
  - rewrite pass_copy by done. simpl.
    assert (length (sub (Lit (a :: rest)) [r] s) <= length s).
    { apply (IH (length s)); [|done]. rewrite Hn. simpl. lia. }
    subst n. simpl. lia.
Qed.

Lemma strip_length s : length (strip s) <= length s.
Proof.
  destruct (strip_app s) as (l & r & Hs & _).
  rewrite Hs at 2. rewrite !length_app. lia.
Qed.

(** X17: the text of a segment is never longer than the text of its element,
    and a text without ampersand is only stripped. *)
Theorem segment_text_bounds (e : Element) :
  length (segment_text e) <= length (default [] (elem_text e))
  /\ (char_in (default [] (elem_text e)) (ch "&") = false ->
      segment_text e = strip (default [] (elem_text e))).
Proof.
  unfold segment_text. split.
  - etransitivity; [apply strip_length|].
    rewrite clean_up_passes. unfold gt_pass, lt_pass, amp_pass.
    etransitivity; [apply (pass_length (ch "&") (py "gt;") (ch ">"))|].
    etransitivity; [apply (pass_length (ch "&") (py "lt;") (ch "<"))|].
    apply (pass_length (ch "&") (py "amp;") (ch "&")).
  - intros H. rewrite clean_up_passes. unfold gt_pass, lt_pass, amp_pass.
    rewrite (pass_no_first (ch "&") (py "amp;")) by done.
    rewrite (pass_no_first (ch "&") (py "lt;")) by done.
    by rewrite (pass_no_first (ch "&") (py "gt;")) by done.
Qed.

Lemma segment_text_bounds_witness :
  segment_text (text_elem (py "1.5") (py "2.0") (py "  Hello, world  "))
  = strip (py "  Hello, world  ").
Proof.
  refine (proj2 (segment_text_bounds _) _). by vm_compute.
Defined.

(** *** The self-test *)

(** X21: the self-test of the class never raises; it prints three lines,
    requests the watch page of the fixed id, prints the result, prints two
    lines, requests the English timed text of that id and prints the
    result. *)
Theorem main_requests (processor : Runtime) :
  exists info transcript,
    main processor
    = ([Print (Text (py "Testing YouTube Processor..."));
        Print (Text rule);
        Print (Text (py "Getting video info..."));
        HttpGet (watch_url (py "dQw4w9WgXcQ"));
        Print (Json (Some 2) info);
        Print (Text (newline :: rule));
        Print (Text (py "Getting transcript..."));
        HttpGet (transcript_url (py "en") (py "dQw4w9WgXcQ"));
        Print (Json (Some 2) transcript)],
       inr tt).
Proof.
  assert (Hid : truthy (extract_video_id test_url) = Some (py "dQw4w9WgXcQ"))
    by (by vm_compute).
  unfold main.
  rewrite (get_video_info_run processor test_url _ Hid).
  rewrite (get_transcript_run processor test_url (py "en") _ Hid).
  do 2 eexists. reflexivity.
Qed.

(** X10: the title and the description handed to the decoder are never
    [None], never empty, and hold no double quote. *)
Theorem captured_strings (html : pystr) :
  (exists title, title_of html = Some title /\ title <> []
                 /\ forallb not_quote title = true)
  /\ (exists description, description_of html = Some description
                          /\ description <> []
                          /\ forallb not_quote description = true).
Proof.
  split.
  - unfold title_of. change title_pattern with (keyed "title" not_quote).
    destruct (search (keyed "title" not_quote) html) as [m|] eqn:Hs.
    + apply search_keyed_inv in Hs as (v & -> & Hne & Hall). by exists v.
    + by eexists.
  - unfold description_of.
    change description_pattern with (keyed "shortDescription" not_quote).
    destruct (search (keyed "shortDescription" not_quote) html) as [m|] eqn:Hs.
    + apply search_keyed_inv in Hs as (v & -> & Hne & Hall). by exists v.
    + by eexists.
Qed.
End ProcessorMore.

(** ** Decoding and numbers *)

Module CodecMore.
Import Processor.
Import ReFacts ProcessorTheorems.

Lemma utf8_encode_plain pos (s : pystr) :
  forallb plain_char s = true ->
  utf8_encode_from pos s = inr (utf8_as_latin1 s).
Proof.
  revert pos. induction s as [|c s IH]; intros pos H; [done|].
  cbn [forallb] in H. apply andb_true_iff in H as [Hc Hs].
  unfold plain_char in Hc. apply andb_true_iff in Hc as [_ Hsur].
  apply negb_true_iff in Hsur. cbn [utf8_encode_from]. rewrite Hsur.
  by rewrite IH.
Qed.

Lemma lead_byte_high (a x : N) : (128 <= a)%N -> (128 <= a + x)%N.
Proof. intros H. etransitivity; [exact H|apply N.le_add_r]. Qed.

Lemma utf8_encode_char_cases c :
  ((c < 128)%N /\ utf8_encode_char c = [c])
  \/ ((128 <= c)%N /\ 2 <= length (utf8_encode_char c)
      /\ forallb (fun b => 128 <=? b)%N (utf8_encode_char c) = true).
Proof.
  unfold utf8_encode_char.
  destruct (N.ltb_spec c 128); [by left|right].
  split; [done|].
  destruct (N.ltb_spec c 2048); [|destruct (N.ltb_spec c 65536)];
    (split; [cbn [length]; lia|]); cbn [forallb];
    rewrite ?andb_true_r, ?andb_true_iff;
    repeat split; apply N.leb_le, lead_byte_high; lia.
Qed.

Lemma utf8_no_backslash (s : pystr) :
  forallb plain_char s = true ->
  forallb (fun b => negb (N.eqb b backslash)) (utf8_as_latin1 s) = true.
Proof.
  induction s as [|c s IH]; [done|]. cbn [forallb]. intros H.
  apply andb_true_iff in H as [Hc Hs].
  unfold utf8_as_latin1 in *. cbn [flat_map].
  rewrite forallb_app, (IH Hs), andb_true_r.
  destruct (utf8_encode_char_cases c) as [[_ ->]|(_ & _ & Hb)].
  - cbn [forallb]. unfold plain_char in Hc.
    apply andb_true_iff in Hc as [-> _]. done.
  - rewrite forallb_forall in *. intros b Hin. specialize (Hb b Hin).
    apply N.leb_le in Hb. apply negb_true_iff, N.eqb_neq.
    unfold backslash, ch. simpl. lia.
Qed.

Lemma unicode_escape_plain getcode input pos (b : bytes) :
  forallb (fun b => negb (N.eqb b backslash)) b = true ->
  unicode_escape_from getcode input 0 pos b = inr b.
Proof.
  revert pos. induction b as [|c b IH]; intros pos H; [done|].
  simpl in H. apply andb_true_iff in H as [Hc Hb].
  apply negb_true_iff in Hc. cbn [unicode_escape_from].
  change (N.eqb c (ch "\")) with (N.eqb c backslash). rewrite Hc.
  by rewrite IH.
Qed.

Lemma utf8_as_latin1_length (s : pystr) :
  length s <= length (utf8_as_latin1 s)
  /\ (forallb is_ascii s = false -> length s < length (utf8_as_latin1 s)).
Proof.
  induction s as [|c s [IH1 IH2]]; [done|].
  unfold utf8_as_latin1 in *. cbn [flat_map forallb length].
  rewrite length_app. unfold pystr, bytes, char in *.
  destruct (utf8_encode_char_cases c) as [[Hc ->]|(Hc & Hlen & _)].
  - cbn [length]. split; [lia|].
    unfold is_ascii at 1. destruct (N.ltb_spec c 128) as [Hlt|Hge]; [|lia].
    cbn [andb]. intros Hs. specialize (IH2 Hs). lia.
  - split; lia.
Qed.

Lemma utf8_as_latin1_ascii (s : pystr) :
  forallb is_ascii s = true -> utf8_as_latin1 s = s.
Proof.
  induction s as [|c s IH]; [done|]. cbn [forallb]. intros H.
  apply andb_true_iff in H as [Hc Hs]. unfold utf8_as_latin1 in *.
  cbn [flat_map]. rewrite (IH Hs). unfold utf8_encode_char.
  unfold is_ascii in Hc. by rewrite Hc.
Qed.

(** X11: a string without backslash (and without surrogate) comes out of
    [encode().decode('unicode_escape')] as its UTF-8 bytes read one
    character each: unchanged when it is ASCII, longer when it is not. *)
Theorem unescape_without_backslash (self : Runtime) (s : pystr) :
  forallb plain_char s = true ->
  unescape self (Some s) = ([], inr (utf8_as_latin1 s))
  /\ (forallb is_ascii s = true -> utf8_as_latin1 s = s)
  /\ (forallb is_ascii s = false -> length s < length (utf8_as_latin1 s)).
Proof.
  intros H. split; [|split].
  - unfold unescape, encode, lift, bind. rewrite (utf8_encode_plain 0 s H).
    unfold unicode_escape_decode.
    by rewrite unicode_escape_plain by (by apply utf8_no_backslash).
  - apply utf8_as_latin1_ascii.
  - apply utf8_as_latin1_length.
Qed.

Lemma unescape_without_backslash_witness :
  unescape (fixed_runtime not_found no_tree) (Some [3626; 3623]%N)
  = ([], inr [224; 184; 170; 224; 184; 167]%N).
Proof.
  refine (proj1 (unescape_without_backslash _ [3626; 3623]%N _)). by vm_compute.
Defined.

(** *** Durations *)

Lemma digits_value_nonneg table (s : pystr) acc n :
  (0 <= acc)%Z -> digits_value table acc s = Some n -> (0 <= n)%Z.
Proof.
  revert acc. induction s as [|c s IH]; intros acc Hacc; simpl.
  - by intros [= <-].
  - destruct (to_decimal table c) as [d|]; [|done]. apply IH. lia.
Qed.

Lemma digits_value_decimal table (d : Decimal.uint) (acc : nat) :
  digits_value table (Z.of_nat acc) (py (NilEmpty.string_of_uint d))
  = Some (Z.of_nat (Nat.of_uint_acc d acc)).
Proof.
  revert acc. induction d as [|d IH|d IH|d IH|d IH|d IH|d IH|d IH|d IH|d IH|d IH];
    intros acc; [done|..];
    simpl; rewrite Nat.tail_mul_spec, <- IH; f_equal;
    unfold Nat.tail_add; simpl; lia.
Qed.

Lemma digits_value_numeral table (d : Decimal.uint) :
  digits_value table 0 (py (NilZero.string_of_uint d))
  = Some (Z.of_nat (Nat.of_uint d)).
Proof.
  destruct d; try done; apply (digits_value_decimal table _ 0).
Qed.

Lemma digits_value_str_of_nat table n :
  digits_value table 0 (str_of_nat n) = Some (Z.of_nat n).
Proof.
  unfold str_of_nat. rewrite digits_value_numeral.
  by rewrite DecimalNat.Unsigned.of_to.
Qed.

Lemma numeral_digits self (d : Decimal.uint) :
  forallb (digit self) (py (NilEmpty.string_of_uint d)) = true.
Proof. induction d; try done; simpl; by rewrite IHd. Qed.

Lemma str_of_nat_digits self n :
  str_of_nat n <> [] /\ forallb (digit self) (str_of_nat n) = true.
Proof.
  unfold str_of_nat.
  destruct (Nat.to_uint n) eqn:Hd; try done;
    (split; [done|]); apply (numeral_digits self (_ _)).
Qed.

(** X12: when the first [lengthSeconds] of the page holds the decimal
    numeral of [n], within the limit on integer literals, the duration is
    [n]. *)
Theorem duration_of_decimal (self : Runtime) (pre post : pystr) (n : nat) :
  occurs_within (length pre) (key "lengthSeconds")
    (pre ++ key "lengthSeconds" ++ str_of_nat n ++ quote ++ post) = false ->
  within_int_limit self (str_of_nat n) ->
  duration_of self (pre ++ key "lengthSeconds" ++ str_of_nat n ++ quote ++ post)
  = ([], inr (Z.of_nat n)).
Proof.
  intros Hfree Hlimit. unfold duration_of.
  destruct (str_of_nat_digits self n) as [Hne Hdigits].
  change (duration_pattern self) with (keyed "lengthSeconds" (digit self)).
  rewrite search_keyed by done. simpl group1.
  unfold int, int_of_digits, lift.
  pose proof (digits_value_str_of_nat (unicode_decimal self) n) as Hv.
  unfold within_int_limit in Hlimit.
  destruct (str_of_nat n) as [|c s] eqn:Hs; [done|].
  rewrite Hv, decide_False; [done|]. lia.
Qed.

Lemma duration_of_decimal_witness :
  duration_of (fixed_runtime not_found no_tree)
    (py "{" ++ key "lengthSeconds" ++ str_of_nat 213 ++ quote ++ py "}")
  = ([], inr 213%Z).
Proof.
  refine (duration_of_decimal _ (py "{") (py "}") 213 _ _).
  - by vm_compute.
  - left. vm_compute. lia.
Defined.

(** X13: a duration that is returned is never negative. *)
Theorem duration_of_nonnegative (self : Runtime) (html : pystr) (n : Z) :
  outcome (duration_of self html) = inr n -> (0 <= n)%Z.
Proof.
  unfold duration_of, int, int_of_digits, lift, ret, raise, outcome.
  destruct (search (duration_pattern self) html) as [m|]; [|intros [= <-]; lia].
  destruct (group1 m) as [s|]; [|done]. cbn [snd].
  destruct s as [|c s]; [done|].
  destruct (digits_value (unicode_decimal self) 0 (c :: s)) as [v|] eqn:Hv;
    [|done].
  destruct (decide _) as [Hbig|Hsmall]; [done|]. intros [= <-].
  eapply digits_value_nonneg; [|exact Hv]. lia.
Qed.

Lemma duration_of_nonnegative_witness : (0 <= 213)%Z.
Proof.
  refine (duration_of_nonnegative (fixed_runtime not_found no_tree)
            (py "{" ++ key "lengthSeconds" ++ py "213" ++ quote ++ py "}") 213 _).
  by vm_compute.
Defined.
End CodecMore.
